(** * lost_crumbs: the site maintenance scripts

    A shallow embedding of [scripts/inject_titles.py] and
    [scripts/gen_nav.py], and the properties of the title injector, the
    section lister and the navigation builder.

    Text is [string]: one [ascii] per character, read as its code point.
    Title case ([title]) is the one of ASCII text, and statements about
    display titles are about file stems of ASCII characters.  A file's
    content is the text [Path.read_text] returns and [Path.write_text]
    takes. *)

From Stdlib Require Import Ascii String ZArith Lia.
From stdpp Require Import base list strings gmap sorting.

Local Open Scope Z_scope.
Local Open Scope nat_scope.

(** ** The Python [str] operations the scripts use *)

Module Py.

Definition LF : ascii := "010"%char.
Definition SP : ascii := " "%char.

Definition code (c : ascii) : nat := nat_of_ascii c.

Definition between (lo hi : nat) (c : ascii) : bool :=
  (lo <=? code c) && (code c <=? hi).

(** [str.isspace] on one character: tab to carriage return, the four
    separators 0x1c-0x1f, the space, NEL and the no-break space. *)
Definition isspace (c : ascii) : bool :=
  between 9 13 c || between 28 32 c || (code c =? 133) || (code c =? 160).

Definition islower (c : ascii) : bool := between 97 122 c.
Definition isupper (c : ascii) : bool := between 65 90 c.
Definition to_upper (c : ascii) : ascii :=
  if islower c then ascii_of_nat (code c - 32) else c.
Definition to_lower (c : ascii) : ascii :=
  if isupper c then ascii_of_nat (code c + 32) else c.

(** [c.lower()] for a character of code below 256: the capital letters of
    ASCII and those of Latin-1, 0xc0-0xd6 and 0xd8-0xde, move up by 32. *)
Definition lower_char (c : ascii) : ascii :=
  if isupper c || between 192 214 c || between 216 222 c
  then ascii_of_nat (code c + 32) else c.

Definition ascii_eqb (a b : ascii) : bool := bool_decide (a = b).

(** [len(s)], [s[:n]] and [s[n:]] for [0 <= n]. *)
Definition len (s : string) : nat := String.length s.

Fixpoint take_str (n : nat) (s : string) : string :=
  match n, s with
  | S n', String c s' => String c (take_str n' s')
  | _, _ => ""
  end.

Fixpoint drop_str (n : nat) (s : string) : string :=
  match n, s with
  | S n', String _ s' => drop_str n' s'
  | _, _ => s
  end.

(** [s[:stop]] for any integer [stop]: a negative bound counts from the
    end, and both are clamped to the string. *)
Definition slice_to (s : string) (stop : Z) : string :=
  let n := Z.of_nat (len s) in
  let stop' := if (stop <? 0)%Z then Z.max 0 (stop + n) else Z.min stop n in
  take_str (Z.to_nat stop') s.

(** [s.startswith(p)] *)
Fixpoint startswith (p s : string) : bool :=
  match p, s with
  | "", _ => true
  | String a p', String b s' => ascii_eqb a b && startswith p' s'
  | String _ _, "" => false
  end.

(** [s.endswith(p)]: some tail of [s] is [p]. *)
Fixpoint endswith (p s : string) : bool :=
  bool_decide (s = p) ||
  match s with
  | "" => false
  | String _ s' => endswith p s'
  end.

(** [sub in s] *)
Fixpoint contains (sub s : string) : bool :=
  startswith sub s ||
  match s with
  | "" => false
  | String _ s' => contains sub s'
  end.

(** [s.find(sub)]: the lowest index where [sub] starts, or [-1]. *)
Fixpoint find_from (i : Z) (sub s : string) : Z :=
  if startswith sub s then i
  else match s with
       | "" => (-1)%Z
       | String _ s' => find_from (i + 1)%Z sub s'
       end.
Definition find (sub s : string) : Z := find_from 0%Z sub s.

(** [s.removeprefix(p)] and [s.removesuffix(p)] *)
Definition removeprefix (p s : string) : string :=
  if startswith p s then drop_str (len p) s else s.

Definition removesuffix (p s : string) : string :=
  if bool_decide (p <> "") && endswith p s
  then take_str (len s - len p) s else s.

(** [s.split(sep)] for a one-character separator: one piece more than
    there are separators, empty pieces kept. *)
Fixpoint split_sep (sep : ascii) (s : string) : list string :=
  match s with
  | "" => [""]
  | String c s' =>
      if ascii_eqb c sep then "" :: split_sep sep s'
      else match split_sep sep s' with
           | piece :: pieces => String c piece :: pieces
           | [] => [String c ""]
           end
  end.

(** [s.split()]: the maximal runs of non-whitespace characters.
    [words s] is the run that starts [s] (empty when [s] starts with
    whitespace) and the runs after it. *)
Definition push_word (w : string) (ws : list string) : list string :=
  match w with
  | "" => ws
  | _ => w :: ws
  end.

Fixpoint words (s : string) : string * list string :=
  match s with
  | "" => ("", [])
  | String c s' =>
      let '(w, ws) := words s' in
      if isspace c then ("", push_word w ws) else (String c w, ws)
  end.

Definition split (s : string) : list string :=
  let '(w, ws) := words s in push_word w ws.

(** [sep.join(l)] *)
Definition join (sep : string) (l : list string) : string :=
  String.concat sep l.

(** [s.replace(old, new)] for one-character [old] and [new]. *)
Fixpoint replace (old new : ascii) (s : string) : string :=
  match s with
  | "" => ""
  | String c s' =>
      String (if ascii_eqb c old then new else c) (replace old new s')
  end.

(** [s.lower()] *)
Fixpoint lower (s : string) : string :=
  match s with
  | "" => ""
  | String c s' => String (lower_char c) (lower s')
  end.

(** [s.isascii()] *)
Fixpoint isascii (s : string) : bool :=
  match s with
  | "" => true
  | String c s' => (code c <? 128) && isascii s'
  end.

(** [s.title()] for [s] of ASCII characters ([s.isascii()]): a letter is
    upper-cased when the character before it is not a letter, and
    lower-cased when it is.  On other characters Python has more cased
    letters and mappings that leave the 8-bit range, so what is stated of
    a title below is stated of ASCII text. *)
Fixpoint title_from (previous_is_cased : bool) (s : string) : string :=
  match s with
  | "" => ""
  | String c s' =>
      if islower c then
        String (if previous_is_cased then c else to_upper c)
               (title_from true s')
      else if isupper c then
        String (if previous_is_cased then to_lower c else c)
               (title_from true s')
      else String c (title_from false s')
  end.
Definition title (s : string) : string := title_from false s.

(** [l[:n]], [l[n:]] on lists are stdpp's [take] and [drop]; [l[n] = v]
    for [n] in range is [<[n:=v]>]. *)

End Py.

(** ** Paths, the file system and the effects of a script *)

(** A [pathlib.Path] is its tuple of parts; the scripts only build relative
    ones. *)
Definition Path : Type := list string.

Definition keep_part (p : string) : bool :=
  negb (bool_decide (p = "")) && negb (bool_decide (p = ".")).

(** [Path(s)] for a relative [s]: the pieces between slashes, without the
    empty ones and the dots. *)
Definition Path_of (s : string) : Path :=
  List.filter keep_part (Py.split_sep "/"%char s).

(** [p.name] *)
Definition name (p : Path) : string := List.last p "".

(** [s.rfind(c)]: the highest index of [c] in [s], if any. *)
Fixpoint rfind (c : ascii) (s : string) : option nat :=
  match s with
  | "" => None
  | String a s' =>
      match rfind c s' with
      | Some i => Some (S i)
      | None => if Py.ascii_eqb a c then Some 0 else None
      end
  end.

(** [p.stem]: the name up to its last dot, when that dot is neither the
    first nor the last character of the name. *)
Definition stem (p : Path) : string :=
  let nm := name p in
  match rfind "."%char nm with
  | Some i => if (0 <? i) && (i <? Py.len nm - 1) then Py.take_str i nm else nm
  | None => nm
  end.

(** Paths compare as their tuples of parts do: at the first part that
    differs, by code points. *)
Fixpoint parts_compare (p q : list string) : comparison :=
  match p, q with
  | [], [] => Eq
  | [], _ :: _ => Lt
  | _ :: _, [] => Gt
  | a :: p', b :: q' =>
      match String.compare a b with
      | Eq => parts_compare p' q'
      | c => c
      end
  end.

Definition path_lt (p q : Path) : bool :=
  match parts_compare p q with
  | Lt => true
  | _ => false
  end.

(** The order [sorted] merges by: [x] stays before [y] unless [y < x]. *)
Definition path_le (x y : Path) : Prop := path_lt y x = false.

Global Instance path_le_dec : RelDecision path_le.
Proof. intros x y. unfold path_le. apply _. Defined.

(** [sorted(l)] on a list of paths. *)
Definition sorted (l : list Path) : list Path := merge_sort path_le l.

Inductive exn : Type :=
  | FileNotFoundError
  | IndexError
  | UnboundLocalError.

(** What a script sees and changes: the text of each file, the entries of
    each directory in the order [iterdir] yields them, what was printed, and
    every [write_text] made so far, oldest first. *)
Record world : Type := World {
  files : gmap Path string;
  dirs : gmap Path (list string);
  stdout : list string;
  written : list (Path * string)
}.

(** A computation either raises or returns, and leaves a world. *)
Definition M (A : Type) : Type := world -> (exn + A) * world.

Global Instance M_ret : MRet M := fun A (a : A) w => (inr a, w).
Global Instance M_bind : MBind M := fun A B (k : A -> M B) (m : M A) w =>
  match m w with
  | (inl e, w') => (inl e, w')
  | (inr a, w') => k a w'
  end.

Definition raise {A} (e : exn) : M A := fun w => (inl e, w).

Definition read_text (p : Path) : M string := fun w =>
  match files w !! p with
  | Some s => (inr s, w)
  | None => (inl FileNotFoundError, w)
  end.

Definition write_text (p : Path) (s : string) : M unit := fun w =>
  (inr tt, World (<[p := s]> (files w)) (dirs w) (stdout w) (written w ++ [(p, s)])).

Definition iterdir (d : Path) : M (list Path) := fun w =>
  match dirs w !! d with
  | Some names => (inr ((fun n => d ++ [n]) <$> names), w)
  | None => (inl FileNotFoundError, w)
  end.

Definition print (s : string) : M unit := fun w =>
  (inr tt, World (files w) (dirs w) (stdout w ++ [s]) (written w)).

(** Reading a local that may not have been assigned yet. *)
Definition local {A} (v : option A) : M A :=
  match v with
  | Some a => mret a
  | None => raise UnboundLocalError
  end.

(** [l[n]] *)
Definition getitem (l : list string) (n : nat) : M string :=
  match l !! n with
  | Some x => mret x
  | None => raise IndexError
  end.

(** [for x in l: body(x)] *)
Fixpoint for_each {A} (body : A -> M unit) (l : list A) : M unit :=
  match l with
  | [] => mret tt
  | x :: l' => body x ;; for_each body l'
  end.

(** ** inject_titles.py *)

Definition sections : list string := ["blog"; "guides"; "resources"; "setups"].

Definition sorted_files (section_slug : string) : M (list Path) :=
  xs ← iterdir (Path_of ("docs/" +:+ section_slug));
  let f := filter (fun x => "index" ≠ stem x) xs in
  mret (sorted f).

Definition DQUOTE : string := String "034"%char "".

(** The right-hand side of the assignment to [title]. *)
Definition title_of_line (line : string) : string :=
  let line_parts := Py.split line in
  Py.removesuffix DQUOTE (Py.removeprefix DQUOTE (Py.join " " (drop 1 line_parts))).

(** The locals [i] and [title] of [file_update]; neither is bound before
    the loop. *)
Definition locals : Type := option nat * option string.

(** The [for i, line in enumerate(lines)] loop, from index [idx] on. *)
Fixpoint scan (lines : list string) (idx : nat) (st : locals) : locals :=
  match lines with
  | [] => st
  | line :: rest =>
      let title :=
        if Py.contains "title: " line then Some (title_of_line line) else st.2 in
      if Py.contains "---" line && (1 <=? idx) then (Some idx, title)
      else scan rest (S idx) (Some idx, title)
  end.

Definition heading (title : string) : string := "# " +:+ title.

Definition file_update (filename : Path) : M unit :=
  original ← read_text filename;
  let lines := Py.split_sep Py.LF original in
  let '(i, title) := scan lines 0 (None, None) in
  i ← local i;
  line2 ← getitem lines (i + 2);
  title ← local title;
  if bool_decide (line2 = heading title) then mret tt
  else if Py.startswith "# " line2 then
    write_text filename (Py.join (String Py.LF "") (<[i + 2 := heading title]> lines))
  else
    let new_lines := take (i + 1) lines ++ [""; heading title; ""] ++ drop (i + 1) lines in
    write_text filename (Py.join (String Py.LF "") new_lines).

Definition section_update (section : string) : M unit :=
  let section_slug := Py.lower section in
  fs ← sorted_files section_slug;
  for_each file_update fs.

Definition inject_titles : M unit := for_each section_update sections.

(** ** gen_nav.py *)

Definition NAV_KEY : string := "# NAV".

Definition display_title (filename : Path) : string :=
  Py.title (Py.replace "_"%char " "%char (Py.replace "-"%char " "%char (stem filename))).

Definition nav_leaf (section_slug : string) (filename : Path) : string :=
  "    - '" +:+ display_title filename +:+ "': " +:+ section_slug +:+ "/" +:+ stem filename.

Definition section_nav (section : string) : M (list string) :=
  let section_slug := Py.lower section in
  let lines := ["  - " +:+ Py.title section +:+ ":"; "    - " +:+ section_slug +:+ "/index.md"] in
  fs ← sorted_files section_slug;
  let lines := fold_left (fun lines filename => lines ++ [nav_leaf section_slug filename]) fs lines in
  print (Py.join (String Py.LF "") lines);;
  mret lines.

(** The second cell: [nav_lines] after the loop over the sections. *)
Fixpoint extend_nav (nav_lines : list string) (l : list string) : M (list string) :=
  match l with
  | [] => mret nav_lines
  | section :: l' =>
      ls ← section_nav section;
      extend_nav (nav_lines ++ ls) l'
  end.

Definition build_nav : M (list string) := extend_nav [NAV_KEY; "nav:"] sections.

(** The last two cells: back up [mkdocs.yml], then splice the block in. *)
Definition splice (nav_lines : list string) : M unit :=
  let mkdocs := Path_of "mkdocs.yml" in
  original ← read_text mkdocs;
  write_text (Path_of ".bak.mkdocs.yml") original;;
  let start_nav_index := Py.find NAV_KEY original in
  let updated := Py.slice_to original start_nav_index +:+ Py.join (String Py.LF "") nav_lines in
  write_text mkdocs updated.

Definition gen_nav : M unit :=
  nav_lines ← build_nav;
  splice nav_lines.

(** ** rename_setups.py *)

(** Besides the errors of the file system, this script can get a
    [ValueError] from [with_name]. *)
Inductive rename_exn : Type :=
  | Raised (e : exn)
  | ValueError.

Definition R (A : Type) : Type := world -> (rename_exn + A) * world.

Definition ret_R {A} (a : A) : R A := fun w => (inr a, w).

Definition bind_R {A B} (m : R A) (k : A -> R B) : R B := fun w =>
  match m w with
  | (inl e, w') => (inl e, w')
  | (inr a, w') => k a w'
  end.

(** A computation of the other scripts, run here. *)
Definition lift {A} (m : M A) : R A := fun w =>
  match m w with
  | (inl e, w') => (inl (Raised e), w')
  | (inr a, w') => (inr a, w')
  end.

(** [p.with_name(new_name)]: the last part replaced; refused when [p] has
    no name, or when the new name is empty, is a dot or holds a slash. *)
Definition with_name (p : Path) (new_name : string) : R Path := fun w =>
  if bool_decide (name p = "") then (inl ValueError, w)
  else if bool_decide (new_name = "") || Py.contains "/" new_name ||
          bool_decide (new_name = ".")
  then (inl ValueError, w)
  else (inr (removelast p ++ [new_name]), w).

Fixpoint for_each_R {A} (body : A -> R unit) (l : list A) : R unit :=
  match l with
  | [] => ret_R tt
  | x :: l' => bind_R (body x) (fun _ => for_each_R body l')
  end.

(** The body of the loop over [fs]. *)
Definition rename_file (f : Path) : R unit :=
  bind_R (with_name f (Py.removeprefix "setup_" (name f))) (fun newf =>
  bind_R (lift (read_text f)) (fun text =>
  lift (write_text newf text))).

(** The directory is listed once, before the loop; the entries of [dirs]
    stay those of that listing while the copies are written. *)
Definition rename_setups : R unit :=
  bind_R (lift (iterdir (Path_of "docs/setups"))) (fun fs =>
  for_each_R rename_file fs).

(** ** Vocabulary of the statements *)

Fixpoint all_chars (P : ascii -> bool) (s : string) : bool :=
  match s with
  | "" => true
  | String c s' => P c && all_chars P s'
  end.

Definition not_char (c : ascii) (a : ascii) : bool := negb (Py.ascii_eqb a c).
Definition not_space (a : ascii) : bool := negb (Py.isspace a).

(** A whitespace-delimited token: not empty, no whitespace inside. *)
Definition token (s : string) : Prop := s ≠ "" ∧ all_chars not_space s = true.

Definition LFs : string := String Py.LF "".

(** Every file of [fs] has a stem of ASCII characters. *)
Definition ascii_stems (fs : list Path) : Prop :=
  Forall (fun f => Py.isascii (stem f) = true) fs.

(** Neither a dash nor an underscore. *)
Definition not_sep (c : ascii) : bool := not_char "-"%char c && not_char "_"%char c.

(** What [join] on one space makes of tokens: no whitespace but spaces. *)
Definition spaced (c : ascii) : bool := not_space c || Py.ascii_eqb c Py.SP.

(** The test that ends the loop of [file_update] at index [idx]. *)
Definition stops (idx : nat) (line : string) : bool :=
  Py.contains "---" line && (1 <=? idx).

(** The value of [title] after the loop body ran on [lines], in order. *)
Definition last_title (lines : list string) (t0 : option string) : option string :=
  fold_left (fun t line =>
    if Py.contains "title: " line then Some (title_of_line line) else t) lines t0.

(** [i] is the terminator index: the first index from 1 on whose line
    contains three dashes. *)
Definition terminator (lines : list string) (i : nat) : Prop :=
  1 <= i ∧ (∃ l, lines !! i = Some l ∧ Py.contains "---" l = true) ∧
  ∀ j l, 1 <= j -> j < i -> lines !! j = Some l -> Py.contains "---" l = false.

(** No line from index 1 on contains three dashes. *)
Definition no_terminator (lines : list string) : Prop :=
  ∀ j l, 1 <= j -> lines !! j = Some l -> Py.contains "---" l = false.

(** The lines of a file's text, and the text of a list of lines. *)
Definition lines_of (text : string) : list string := Py.split_sep Py.LF text.
Definition text_of (lines : list string) : string := Py.join LFs lines.

(** What the first test of [file_update] looks for: the line two places
    after the index the loop ends on is the heading of the loop's title. *)
Definition heading_in_place (text : string) : Prop :=
  ∃ i title,
    scan (lines_of text) 0 (None, None) = (Some i, Some title) ∧
    lines_of text !! (i + 2) = Some (heading title).

(** The file [f] exists in [w] with its heading in place. *)
Definition heading_ok (w : world) (f : Path) : Prop :=
  ∃ text, files w !! f = Some text ∧ heading_in_place text.

(** [f] is among the files the section lister gives for section [s]. *)
Definition listed_in (w : world) (s : string) (f : Path) : Prop :=
  ∃ fs, (sorted_files (Py.lower s) w).1 = inr fs ∧ f ∈ fs.

(** The world after [out] was printed, nothing else changed. *)
Definition printed (w : world) (out : list string) : world :=
  World (files w) (dirs w) (stdout w ++ out) (written w).

(** Settles a hypothesis [H] on the line of index [j] of a given document,
    index by index. *)
Ltac index_case :=
  first [lia | simplify_eq/=; first [done | vm_compute; reflexivity]].
Ltac by_index j H :=
  vm_compute in H; do 8 (try (destruct j as [|j]; [index_case|])); index_case.

(** ** Sample trees *)

Definition post_md : Path := ["docs"; "blog"; "post.md"].

(** A tree with the one content file [docs/blog/post.md]. *)
Definition world_of (lines : list string) : world :=
  World {[ post_md := text_of lines ]} {[ ["docs"; "blog"] := ["post.md"] ]} [] [].

(** The body starts with a paragraph. *)
Definition doc_paragraph : list string :=
  ["---"; "title: Hello World"; "date: 2022-01-01"; "---"; ""; "First paragraph."; ""].

(** Two title lines, the second one closing the front matter as well. *)
Definition doc_two_titles : list string :=
  ["---"; "title: Draft"; "title: Final --- cut"; ""; "First paragraph."; ""].

(** No title field. *)
Definition doc_untitled : list string :=
  ["---"; "date: 2022-01-01"; "---"; ""; "First paragraph."; ""].

(** The front matter is never closed. *)
Definition doc_open : list string :=
  ["---"; "title: Hello World"; ""; "First paragraph."; ""].

(** Nothing after the front matter but the final newline. *)
Definition doc_front_only : list string :=
  ["---"; "title: Hello World"; "---"; ""].

(** The body starts with a heading that is not the title. *)
Definition doc_old_heading : list string :=
  ["---"; "title: New Title"; "---"; ""; "# Old Heading"; ""; "Text."; ""].

(** The heading is already the title. *)
Definition doc_done : list string :=
  ["---"; "title: Hello World"; "---"; ""; "# Hello World"; ""; "Text."; ""].

(** A tree with two posts and an index page in the blog section, the other
    sections empty. *)
Definition blog_world (a b : list string) : world :=
  World {[ ["docs"; "blog"; "a.md"] := text_of a; ["docs"; "blog"; "b.md"] := text_of b;
           ["docs"; "blog"; "index.md"] := "Welcome." ]}
        {[ ["docs"; "blog"] := ["b.md"; "index.md"; "a.md"];
           ["docs"; "guides"] := [];
           ["docs"; "resources"] := [];
           ["docs"; "setups"] := [] ]} [] [].

(** A configuration with a navigation block under the marker. *)
Definition config_with_nav : list string :=
  ["site_name: crumbs"; "theme: readthedocs"; "# NAV"; "nav:"; "  - Old: old.md"].

(** The setups section with prefixed files and files without the prefix. *)
Definition setups_world (entries : list string) : world :=
  World {[ ["docs"; "setups"; "setup_vim.md"] := "vim"; ["docs"; "setups"; "setup_zsh.md"] := "zsh";
           ["docs"; "setups"; "index.md"] := "Setups"; ["docs"; "setups"; "setup_"] := "empty";
           ["docs"; "setups"; "notes.txt"] := "Notes";
           ["mkdocs.yml"] := "site_name: crumbs" ]}
        {[ ["docs"; "setups"] := entries ]} [] [].

(** The heading stands right under the front matter, with no empty line
    in between. *)
Definition doc_tight : list string :=
  ["---"; "title: Hello World"; "---"; "# Hello World"; "Text."; ""].

(** A site with its four sections and a configuration [config]. *)
Definition site_world (config : string) : world :=
  World {[ ["mkdocs.yml"] := config ]}
        {[ ["docs"; "blog"] := ["c.md"; "index.md"; "a.md"; "my-first_post.md"; "b.md"];
           ["docs"; "guides"] := [];
           ["docs"; "resources"] := ["index.md"];
           ["docs"; "setups"] := ["vim.md"; "Bash.md"] ]} [] [].

(** * Properties *)

(** ** The string operations on examples *)

Example split_ex : Py.split "  title:   a  b " = ["title:"; "a"; "b"].
Proof. reflexivity. Qed.
Example split_sep_ex : Py.split_sep "-"%char "a-b--c-" = ["a"; "b"; ""; "c"; ""].
Proof. reflexivity. Qed.
Example title_ex : Py.title "my first pOST it's a1b" = "My First Post It'S A1B".
Proof. reflexivity. Qed.
Example find_ex : Py.find "# NAV" "ab# NAV# NAV" = 2%Z /\ Py.find "# NAV" "abc" = (-1)%Z.
Proof. split; reflexivity. Qed.
Example slice_ex : Py.slice_to "abcd" (-1) = "abc" /\ Py.slice_to "abcd" 2 = "ab"
  /\ Py.slice_to "" (-1) = "" /\ Py.slice_to "ab" 7 = "ab".
Proof. repeat split; reflexivity. Qed.
Example removesuffix_ex : Py.removesuffix "x" "abx" = "ab" /\ Py.removesuffix "x" "xab" = "xab".
Proof. split; reflexivity. Qed.

(** ** Facts about the string operations *)

Section strings.
Implicit Types (s p : string) (c : ascii) (l : list string).

Lemma str_app_nil_l s : "" +:+ s = s.
Proof. reflexivity. Qed.
Lemma str_app_cons c s1 s2 : String c s1 +:+ s2 = String c (s1 +:+ s2).
Proof. reflexivity. Qed.
Lemma str_app_nil_r s : s +:+ "" = s.
Proof. induction s as [|c s IH]; [done|]. by rewrite str_app_cons, IH. Qed.
Lemma str_app_assoc s1 s2 s3 : (s1 +:+ s2) +:+ s3 = s1 +:+ s2 +:+ s3.
Proof. induction s1 as [|c s1 IH]; [done|]. by rewrite !str_app_cons, IH. Qed.

Lemma ascii_eqb_true a b : Py.ascii_eqb a b = true ↔ a = b.
Proof. unfold Py.ascii_eqb. by rewrite bool_decide_eq_true. Qed.
Lemma ascii_eqb_refl a : Py.ascii_eqb a a = true.
Proof. by apply ascii_eqb_true. Qed.

Lemma all_chars_app P s1 s2 :
  all_chars P (s1 +:+ s2) = all_chars P s1 && all_chars P s2.
Proof.
  induction s1 as [|c s1 IH]; [done|].
  rewrite str_app_cons. simpl. by rewrite IH, andb_assoc.
Qed.

Lemma all_chars_impl (P Q : ascii -> bool) s :
  (∀ c, P c = true -> Q c = true) -> all_chars P s = true -> all_chars Q s = true.
Proof.
  intros HPQ. induction s as [|c s IH]; simpl; [done|].
  rewrite !andb_true_iff. intros [? ?]. auto.
Qed.

Lemma all_chars_take P n s : all_chars P s = true -> all_chars P (Py.take_str n s) = true.
Proof.
  revert n. induction s as [|c s IH]; intros [|n]; simpl; try done.
  rewrite !andb_true_iff. intros [? ?]. auto.
Qed.

Lemma all_chars_drop P n s : all_chars P s = true -> all_chars P (Py.drop_str n s) = true.
Proof.
  revert n. induction s as [|c s IH]; intros [|n]; simpl; try done.
  rewrite !andb_true_iff. intros [? ?]. auto.
Qed.

(** *** [split] on a separator and [join] *)

Lemma split_sep_cons sep s : ∃ p l, Py.split_sep sep s = p :: l.
Proof.
  induction s as [|c s (p & l & IH)]; simpl; [by eauto|].
  destruct (Py.ascii_eqb c sep); [by eauto|]. rewrite IH. eauto.
Qed.

Lemma split_sep_free sep s :
  Forall (fun p => all_chars (not_char sep) p = true) (Py.split_sep sep s).
Proof.
  induction s as [|c s IH]; simpl; [by repeat constructor|].
  destruct (Py.ascii_eqb c sep) eqn:Hc; [by constructor|].
  destruct (Py.split_sep sep s) as [|p l]; [repeat constructor; simpl|].
  - unfold not_char. by rewrite Hc.
  - inversion IH; subst. constructor; [|done]. simpl. unfold not_char at 1. by rewrite Hc.
Qed.

Lemma split_sep_one sep s :
  all_chars (not_char sep) s = true -> Py.split_sep sep s = [s].
Proof.
  induction s as [|c s IH]; simpl; [done|].
  rewrite andb_true_iff. unfold not_char at 1. rewrite negb_true_iff.
  intros [-> Hs]. by rewrite IH.
Qed.

Lemma split_sep_app sep s r :
  all_chars (not_char sep) s = true ->
  Py.split_sep sep (s +:+ String sep r) = s :: Py.split_sep sep r.
Proof.
  induction s as [|c s IH]; simpl.
  - intros _. by rewrite ascii_eqb_refl.
  - rewrite andb_true_iff. unfold not_char at 1. rewrite negb_true_iff.
    intros [Hc Hs]. by rewrite Hc, IH.
Qed.

Lemma join_cons sep s1 s2 l :
  Py.join sep (s1 :: s2 :: l) = s1 +:+ sep +:+ Py.join sep (s2 :: l).
Proof. reflexivity. Qed.

Lemma split_sep_join sep l :
  l ≠ [] ->
  Forall (fun p => all_chars (not_char sep) p = true) l ->
  Py.split_sep sep (Py.join (String sep "") l) = l.
Proof.
  intros Hne Hl. induction Hl as [|s l Hs Hl IH]; [done|].
  destruct l as [|s2 l].
  - by apply split_sep_one.
  - rewrite join_cons. change (String sep "" +:+ ?x) with (String sep x).
    rewrite split_sep_app by done. by rewrite IH.
Qed.

(** *** [split] on whitespace *)

Lemma push_word_tokens w ws :
  all_chars not_space w = true -> Forall token ws -> Forall token (Py.push_word w ws).
Proof.
  intros Hw Hws. destruct w as [|c w]; [done|].
  simpl. constructor; [|done]. by split.
Qed.

Lemma words_tokens s :
  all_chars not_space (Py.words s).1 = true ∧ Forall token (Py.words s).2.
Proof.
  induction s as [|c s [IH1 IH2]]; simpl; [by split|].
  destruct (Py.words s) as [w ws]. simpl in *.
  destruct (Py.isspace c) eqn:Hc; simpl.
  - split; [done|]. by apply push_word_tokens.
  - split; [|done]. unfold not_space at 1. by rewrite Hc.
Qed.

Lemma split_tokens s : Forall token (Py.split s).
Proof.
  unfold Py.split. pose proof (words_tokens s) as [H1 H2].
  destruct (Py.words s) as [w ws]. by apply push_word_tokens.
Qed.

Lemma words_app t s :
  all_chars not_space t = true ->
  Py.words (t +:+ s) = (t +:+ (Py.words s).1, (Py.words s).2).
Proof.
  induction t as [|c t IH]; simpl.
  - intros _. rewrite !str_app_nil_l. by destruct (Py.words s).
  - rewrite andb_true_iff. unfold not_space at 1. rewrite negb_true_iff.
    intros [Hc Ht]. rewrite IH by done. by rewrite Hc.
Qed.

Lemma split_token_space tok c rest :
  token tok -> Py.isspace c = true ->
  Py.split (tok +:+ String c rest) = tok :: Py.split rest.
Proof.
  intros [Hne Htok] Hc. unfold Py.split at 1. rewrite words_app by done.
  simpl. unfold Py.split. destruct (Py.words rest) as [w ws]. rewrite Hc. simpl.
  rewrite str_app_nil_r. by destruct tok.
Qed.

Lemma split_token tok : token tok -> Py.split tok = [tok].
Proof.
  intros [Hne Htok]. unfold Py.split.
  rewrite <-(str_app_nil_r tok) at 1. rewrite words_app by done. simpl.
  rewrite str_app_nil_r. by destruct tok.
Qed.

Lemma split_join ws : Forall token ws -> Py.split (Py.join " " ws) = ws.
Proof.
  induction 1 as [|w ws Hw Hws IH]; [done|].
  destruct ws as [|w2 ws].
  - by apply split_token.
  - rewrite join_cons. change (" " +:+ ?x) with (String Py.SP x).
    rewrite split_token_space by done. by rewrite IH.
Qed.

Lemma join_spaced ws : Forall token ws -> all_chars spaced (Py.join " " ws) = true.
Proof.
  induction 1 as [|w ws [_ Hw] Hws IH]; [done|].
  assert (all_chars spaced w = true) as Hw'.
  { revert Hw. apply all_chars_impl. unfold spaced. by intros c ->. }
  destruct ws as [|w2 ws]; [done|].
  rewrite join_cons, !all_chars_app, Hw', IH. done.
Qed.

Lemma spaced_not_LF c : spaced c = true -> not_char Py.LF c = true.
Proof.
  unfold not_char. destruct (Py.ascii_eqb c Py.LF) eqn:Hc; [|done].
  apply ascii_eqb_true in Hc as ->. by vm_compute.
Qed.

(** *** [removeprefix] and [removesuffix] only touch the ends *)

Lemma startswith_drop p s :
  Py.startswith p s = true -> s = p +:+ Py.drop_str (Py.len p) s.
Proof.
  revert s. induction p as [|a p IH]; intros [|b s]; simpl; try done.
  rewrite andb_true_iff, ascii_eqb_true. intros [-> Hp]. rewrite str_app_cons. f_equal. by apply IH.
Qed.

Lemma endswith_len p s : Py.endswith p s = true -> Py.len p <= Py.len s.
Proof.
  induction s as [|c s IH]; simpl; rewrite orb_true_iff, bool_decide_eq_true.
  - by intros [<-|?].
  - intros [<-|Hs]; [done|]. apply IH in Hs. unfold Py.len in *. lia.
Qed.

Lemma endswith_take p s :
  Py.endswith p s = true -> s = Py.take_str (Py.len s - Py.len p) s +:+ p.
Proof.
  induction s as [|c s IH].
  - simpl. rewrite orb_true_iff, bool_decide_eq_true. by intros [<-|?].
  - simpl Py.endswith. rewrite orb_true_iff, bool_decide_eq_true.
    intros [<-|Hs].
    + by rewrite Nat.sub_diag.
    + pose proof (endswith_len _ _ Hs) as Hlen.
      replace (Py.len (String c s) - Py.len p) with (S (Py.len s - Py.len p))
        by (unfold Py.len in *; simpl; lia).
      simpl. rewrite str_app_cons. f_equal. by apply IH.
Qed.

Lemma removeprefix_ends p s :
  ∃ q, s = q +:+ Py.removeprefix p s ∧ (q = "" ∨ q = p).
Proof.
  unfold Py.removeprefix. destruct (Py.startswith p s) eqn:Hp.
  - exists p. split; [by apply startswith_drop | by right].
  - exists "". by split; [|left].
Qed.

Lemma removesuffix_ends p s :
  ∃ q, s = Py.removesuffix p s +:+ q ∧ (q = "" ∨ q = p).
Proof.
  unfold Py.removesuffix.
  destruct (bool_decide (p ≠ "") && Py.endswith p s) eqn:Hp.
  - apply andb_true_iff in Hp as [_ Hp]. exists p.
    split; [by apply endswith_take | by right].
  - exists "". split; [by rewrite str_app_nil_r | by left].
Qed.

Lemma removeprefix_chars P p s :
  all_chars P s = true -> all_chars P (Py.removeprefix p s) = true.
Proof. unfold Py.removeprefix. destruct (Py.startswith p s); auto using all_chars_drop. Qed.

Lemma removesuffix_chars P p s :
  all_chars P s = true -> all_chars P (Py.removesuffix p s) = true.
Proof.
  unfold Py.removesuffix. destruct (_ && _); auto using all_chars_take.
Qed.

Lemma title_of_line_no_LF line : all_chars (not_char Py.LF) (title_of_line line) = true.
Proof.
  apply all_chars_impl with (P := spaced); [apply spaced_not_LF|].
  unfold title_of_line.
  apply removesuffix_chars, removeprefix_chars, join_spaced, Forall_drop, split_tokens.
Qed.
End strings.

(** ** The loop of [file_update] *)

Section scan.
Implicit Types (lines pre post : list string) (st : locals) (l : string).

Lemma last_title_snoc lines l (t0 : option string) :
  last_title (lines ++ [l]) t0 =
  if Py.contains "title: " l then Some (title_of_line l) else last_title lines t0.
Proof. unfold last_title. by rewrite fold_left_app. Qed.

Lemma last_title_none lines (t0 : option string) :
  (∀ j l, lines !! j = Some l -> Py.contains "title: " l = false) ->
  last_title lines t0 = t0.
Proof.
  revert t0. induction lines as [|l lines IH]; intros t0 H; [done|].
  simpl. rewrite (H 0 l eq_refl). apply IH. intros j l'. apply (H (S j)).
Qed.

Lemma last_title_app pre post (t0 : option string) :
  last_title (pre ++ post) t0 = last_title post (last_title pre t0).
Proof. apply fold_left_app. Qed.

Lemma last_title_no_LF lines (t0 : option string) (t : string) :
  (∀ t', t0 = Some t' -> all_chars (not_char Py.LF) t' = true) ->
  last_title lines t0 = Some t -> all_chars (not_char Py.LF) t = true.
Proof.
  revert t0. induction lines as [|l lines IH]; intros t0 H0; simpl.
  - apply H0.
  - apply IH. destruct (Py.contains "title: " l); [|done].
    intros t' [= <-]. apply title_of_line_no_LF.
Qed.

Lemma scan_cons l lines idx st :
  scan (l :: lines) idx st =
  let title :=
    if Py.contains "title: " l then Some (title_of_line l) else st.2 in
  if stops idx l then (Some idx, title) else scan lines (S idx) (Some idx, title).
Proof. reflexivity. Qed.

(** The loop breaks at the first line that passes the test. *)
Lemma scan_break pre l post idx st :
  (∀ k l', pre !! k = Some l' -> stops (idx + k) l' = false) ->
  stops (idx + length pre) l = true ->
  scan (pre ++ l :: post) idx st = (Some (idx + length pre), last_title (pre ++ [l]) st.2).
Proof.
  revert idx st. induction pre as [|p pre IH]; intros idx st Hpre Hl;
    cbn [app]; rewrite scan_cons; cbn zeta.
  - cbn [length] in *. rewrite Nat.add_0_r in *. by rewrite Hl.
  - pose proof (Hpre 0 p eq_refl) as Hp. rewrite Nat.add_0_r in Hp.
    rewrite Hp, IH.
    + cbn [length fst snd]. f_equal. f_equal. lia.
    + intros k l' Hk. replace (S idx + k) with (idx + S k) by lia. by apply Hpre.
    + by replace (S idx + length pre) with (idx + length (p :: pre)) by (simpl; lia).
Qed.

(** Without such a line it runs to the end of the list. *)
Lemma scan_exhaust l lines idx st :
  (∀ k l', (l :: lines) !! k = Some l' -> stops (idx + k) l' = false) ->
  scan (l :: lines) idx st = (Some (idx + length lines), last_title (l :: lines) st.2).
Proof.
  revert l idx st. induction lines as [|l2 lines IH]; intros l idx st H.
  - pose proof (H 0 l eq_refl) as Hl. rewrite Nat.add_0_r in *.
    rewrite scan_cons. cbn zeta. by rewrite Hl.
  - pose proof (H 0 l eq_refl) as Hl. rewrite Nat.add_0_r in Hl.
    rewrite scan_cons. cbn zeta. rewrite Hl, IH.
    + cbn [length fst snd]. f_equal. f_equal. lia.
    + intros k l' Hk. replace (S idx + k) with (idx + S k) by lia. by apply H.
Qed.

(** A result index with a line after it comes from a break. *)
Lemma scan_inv lines idx st i (t : option string) :
  scan lines idx st = (Some i, t) ->
  i + 1 < idx + length lines ->
  (∀ i', st.1 = Some i' -> idx <= i' + 1) ->
  ∃ pre l post, lines = pre ++ l :: post ∧ i = idx + length pre ∧
    (∀ k l', pre !! k = Some l' -> stops (idx + k) l' = false) ∧
    stops i l = true.
Proof.
  revert idx st. induction lines as [|l lines IH]; intros idx st Hscan Hi Hst.
  - simpl in *. destruct st as [i0 t0]. simplify_eq/=.
    specialize (Hst i eq_refl). lia.
  - rewrite scan_cons in Hscan. cbn zeta in Hscan.
    destruct (stops idx l) eqn:Hl.
    + simplify_eq. exists [], l, lines. rewrite Nat.add_0_r.
      split_and!; [done|done| |done]. by intros k l' ?.
    + apply IH in Hscan as (pre & l0 & post & -> & -> & Hpre & Hl0).
      * exists (l :: pre), l0, post. simpl. split_and!; [done|lia| |done].
        intros [|k] l' Hk; simplify_eq/=.
        -- by rewrite Nat.add_0_r.
        -- replace (idx + S k) with (S idx + k) by lia. by apply Hpre.
      * simpl in Hi. lia.
      * simpl. intros i' [= <-]. lia.
Qed.

(** So the result only depends on the lines up to that index. *)
Lemma scan_stable lines lines' i (t : option string) :
  scan lines 0 (None, None) = (Some i, t) ->
  i + 1 < length lines ->
  take (S i) lines' = take (S i) lines ->
  scan lines' 0 (None, None) = (Some i, t).
Proof.
  intros Hscan Hi Htake.
  destruct (scan_inv _ _ _ _ _ Hscan) as (pre & l & post & -> & -> & Hpre & Hl);
    [done|done|].
  rewrite scan_break in Hscan by done. injection Hscan as <-.
  cbn [Nat.add] in *.
  assert (take (S (length pre)) (pre ++ l :: post) = pre ++ [l]) as Hpl.
  { rewrite (cons_middle l pre post), (assoc_L (++)). apply take_app_length'.
    rewrite length_app. simpl. lia. }
  rewrite Hpl in Htake.
  rewrite <-(take_drop (S (length pre)) lines'), Htake, <-(assoc_L (++)). cbn [app].
  by rewrite scan_break.
Qed.

Lemma terminator_split lines i :
  terminator lines i ->
  ∃ pre l post, lines = pre ++ l :: post ∧ length pre = i ∧
    (∀ k l', pre !! k = Some l' -> stops k l' = false) ∧ stops i l = true.
Proof.
  intros (Hi & (l & Hl & Hc) & Hbefore).
  exists (take i lines), l, (drop (S i) lines).
  assert (i < length lines) by by eapply lookup_lt_Some.
  split_and!.
  - by rewrite take_drop_middle.
  - rewrite length_take. lia.
  - intros k l' Hk. unfold stops.
    apply lookup_take_Some in Hk as [Hk ?].
    destruct k as [|k]; [by rewrite andb_false_r|].
    rewrite (Hbefore (S k) l') by (done || lia). done.
  - unfold stops. rewrite Hc. cbn [andb]. apply Nat.leb_le. lia.
Qed.

Lemma scan_terminator lines i :
  terminator lines i ->
  scan lines 0 (None, None) = (Some i, last_title (take (S i) lines) None).
Proof.
  intros (pre & l & post & -> & <- & Hpre & Hl)%terminator_split.
  rewrite scan_break by done. cbn [Nat.add snd].
  rewrite (cons_middle l pre post), (assoc_L (++)).
  rewrite take_app_length' by (rewrite length_app; simpl; lia). done.
Qed.

Lemma scan_no_terminator l lines :
  no_terminator (l :: lines) ->
  scan (l :: lines) 0 (None, None) = (Some (length lines), last_title (l :: lines) None).
Proof.
  intros H. rewrite scan_exhaust; [done|].
  intros [|k] l' Hk; unfold stops; [by rewrite andb_false_r|].
  rewrite (H (S k) l') by (done || lia). done.
Qed.
End scan.

(** ** [file_update] *)

Section file_update.
Implicit Types (w : world) (filename : Path) (original : string).

Lemma file_update_missing w filename :
  files w !! filename = None ->
  file_update filename w = (inl FileNotFoundError, w).
Proof.
  intros H. unfold file_update, mbind, M_bind, read_text. by rewrite H.
Qed.

(** What [file_update] does, by the results of its loop. *)
Lemma file_update_unfold w filename original :
  files w !! filename = Some original ->
  file_update filename w =
  let lines := lines_of original in
  match scan lines 0 (None, None) with
  | (None, _) => (inl UnboundLocalError, w)
  | (Some i, title) =>
      match lines !! (i + 2), title with
      | None, _ => (inl IndexError, w)
      | Some _, None => (inl UnboundLocalError, w)
      | Some line2, Some title =>
          if bool_decide (line2 = heading title) then (inr tt, w)
          else if Py.startswith "# " line2 then
            write_text filename (text_of (<[i + 2 := heading title]> lines)) w
          else
            write_text filename
              (text_of (take (i + 1) lines ++ [""; heading title; ""] ++ drop (i + 1) lines)) w
      end
  end.
Proof.
  intros H. unfold file_update, mbind, M_bind, read_text. rewrite H.
  cbn zeta. unfold lines_of. destruct (scan _ 0 (None, None)) as [[i|] title]; [|done].
  unfold local, getitem, mret, M_ret, raise.
  destruct (_ !! (i + 2)) as [line2|]; [|done].
  destruct title as [title|]; [|done].
  destruct (bool_decide _); [done|]. by destruct (Py.startswith _ _).
Qed.

Lemma lines_of_cons original : ∃ l lines, lines_of original = l :: lines.
Proof. apply split_sep_cons. Qed.

Lemma lines_of_text_of lines :
  lines ≠ [] ->
  Forall (fun l => all_chars (not_char Py.LF) l = true) lines ->
  lines_of (text_of lines) = lines.
Proof. apply split_sep_join. Qed.

Lemma heading_no_LF (t : string) :
  all_chars (not_char Py.LF) t = true -> all_chars (not_char Py.LF) (heading t) = true.
Proof. intros H. unfold heading. by rewrite all_chars_app, H. Qed.
End file_update.

Section heading_lines.
Context (lines : list string) (i : nat) (h : string).
Hypothesis Hlen : i + 2 < length lines.

Let new_lines : list string := take (i + 1) lines ++ [""; h; ""] ++ drop (i + 1) lines.

Lemma inserted_length : length new_lines = length lines + 3.
Proof.
  unfold new_lines. rewrite !length_app, length_take, length_drop. simpl. lia.
Qed.

Lemma inserted_before j : j <= i -> new_lines !! j = lines !! j.
Proof.
  intros Hj. unfold new_lines.
  rewrite lookup_app_l by (rewrite length_take; lia).
  apply lookup_take_lt. lia.
Qed.

Lemma inserted_at k :
  k < 3 -> new_lines !! (i + 1 + k) = [""; h; ""] !! k.
Proof.
  intros Hk. unfold new_lines.
  rewrite lookup_app_r by (rewrite length_take; lia).
  rewrite length_take. replace (i + 1 + k - (i + 1) `min` length lines) with k by lia.
  by apply lookup_app_l.
Qed.

Lemma inserted_after j : i < j -> new_lines !! (j + 3) = lines !! j.
Proof.
  intros Hj. unfold new_lines.
  rewrite lookup_app_r by (rewrite length_take; lia).
  rewrite length_take.
  rewrite lookup_app_r by (simpl; lia).
  rewrite lookup_drop. f_equal. simpl. lia.
Qed.

Lemma inserted_take : take (S i) new_lines = take (S i) lines.
Proof.
  unfold new_lines. rewrite take_app_le by (rewrite length_take; lia).
  rewrite take_take. f_equal. lia.
Qed.
End heading_lines.

(** ** The title injector *)

(** C9. The loop of [file_update] stops at the first line of index at least 1
    that contains three dashes anywhere in it; whatever else the line holds
    does not matter, and when it is itself a title line its title is the
    one kept. *)
Theorem scan_stops_at_first_dashes (lines : list string) (i : nat) (l : string) :
  1 <= i ->
  lines !! i = Some l ->
  Py.contains "---" l = true ->
  (∀ j l', 1 <= j -> j < i -> lines !! j = Some l' -> Py.contains "---" l' = false) ->
  (scan lines 0 (None, None)).1 = Some i ∧
  (Py.contains "title: " l = true ->
   (scan lines 0 (None, None)).2 = Some (title_of_line l)).
Proof.
  intros Hi Hl Hc Hbefore.
  assert (terminator lines i) as Hterm by (split_and!; eauto).
  rewrite (scan_terminator _ _ Hterm). split; [done|]. intros Ht. cbn [snd].
  rewrite (take_S_r _ _ _ Hl), last_title_snoc. by rewrite Ht.
Qed.

Lemma scan_stops_at_first_dashes_witness :
  (scan doc_two_titles 0 (None, None)).1 = Some 2 ∧
  (scan doc_two_titles 0 (None, None)).2 = Some (title_of_line "title: Final --- cut").
Proof.
  destruct (scan_stops_at_first_dashes doc_two_titles 2 "title: Final --- cut")
    as [Hindex Htitle].
  - lia.
  - reflexivity.
  - reflexivity.
  - intros j l' H1 H2 Hj. by_index j Hj.
  - split; [exact Hindex | exact (Htitle eq_refl)].
Defined.

(** C8. With several title lines at or before the terminator, the expected
    title is the one of the last of them. *)
Theorem last_title_line_wins (lines : list string) (i j : nat) (l : string) :
  terminator lines i ->
  j <= i ->
  lines !! j = Some l ->
  Py.contains "title: " l = true ->
  (∀ k l', j < k -> k <= i -> lines !! k = Some l' -> Py.contains "title: " l' = false) ->
  (scan lines 0 (None, None)).2 = Some (title_of_line l).
Proof.
  intros Hterm Hj Hl Ht Hafter.
  rewrite (scan_terminator _ _ Hterm). cbn [snd].
  assert (take (S i) lines !! j = Some l) as Hl' by (rewrite lookup_take_lt; [done|lia]).
  rewrite <-(take_drop_middle _ _ _ Hl').
  rewrite (cons_middle l), (assoc_L (++)), last_title_app, last_title_snoc, Ht.
  apply last_title_none. intros k l' Hk.
  rewrite lookup_drop in Hk. apply lookup_take_Some in Hk as [Hk ?].
  apply (Hafter (S j + k)); [lia|lia|done].
Qed.

Lemma last_title_line_wins_witness :
  (scan doc_two_titles 0 (None, None)).2 = Some "Final --- cut".
Proof.
  apply (last_title_line_wins doc_two_titles 2 2 "title: Final --- cut").
  - split_and!; [lia | by eexists | ]. intros j l' H1 H2 Hj. by_index j Hj.
  - lia.
  - reflexivity.
  - reflexivity.
  - intros k l' H1 H2 Hk. by_index k Hk.
Defined.

(** C10. When no line exists two places after the terminator, [file_update]
    raises [IndexError] at its first look at that line, before any heading
    is built, and the tree is left as it was. *)
Theorem file_update_index_error (w : world) (filename : Path) (original : string) (i : nat) :
  files w !! filename = Some original ->
  terminator (lines_of original) i ->
  length (lines_of original) <= i + 2 ->
  file_update filename w = (inl IndexError, w).
Proof.
  intros Hfile Hterm Hlen.
  rewrite (file_update_unfold _ _ _ Hfile). cbn zeta.
  rewrite (scan_terminator _ _ Hterm).
  by rewrite (lookup_ge_None_2 _ _ Hlen).
Qed.

Lemma file_update_index_error_witness :
  file_update post_md (world_of doc_front_only) = (inl IndexError, world_of doc_front_only).
Proof.
  apply (file_update_index_error _ _ (text_of doc_front_only) 2).
  - reflexivity.
  - split_and!; [lia | by eexists | ]. intros j l' H1 H2 Hj. by_index j Hj.
  - vm_compute. lia.
Defined.

(** C3. A file with no title line at or before its terminator, or with no
    terminator at all, makes [file_update] raise, and nothing is written:
    the tree, the write log included, is the one the call started from. *)
Theorem file_update_fails_without_title_or_terminator
    (w : world) (filename : Path) (original : string) :
  files w !! filename = Some original ->
  (∃ i, terminator (lines_of original) i ∧
        ∀ j l, j <= i -> lines_of original !! j = Some l -> Py.contains "title: " l = false)
  ∨ no_terminator (lines_of original) ->
  ∃ e, file_update filename w = (inl e, w).
Proof.
  intros Hfile H. rewrite (file_update_unfold _ _ _ Hfile). cbn zeta.
  destruct H as [(i & Hterm & Hnone)|Hnone].
  - rewrite (scan_terminator _ _ Hterm).
    rewrite last_title_none.
    + destruct (_ !! (i + 2)); eauto.
    + intros j l [Hj ?]%lookup_take_Some. apply (Hnone j); [lia|done].
  - destruct (lines_of_cons original) as (l & lines & Heq). rewrite Heq in *.
    rewrite (scan_no_terminator _ _ Hnone).
    rewrite lookup_ge_None_2 by (simpl; lia). eauto.
Qed.

Lemma file_update_fails_without_title_or_terminator_witness :
  (∃ e, file_update post_md (world_of doc_untitled) = (inl e, world_of doc_untitled)) ∧
  (∃ e, file_update post_md (world_of doc_open) = (inl e, world_of doc_open)).
Proof.
  split.
  - apply (file_update_fails_without_title_or_terminator _ _ (text_of doc_untitled)).
    + reflexivity.
    + left. exists 2. split.
      * split_and!; [lia | by eexists | ]. intros j l' H1 H2 Hj. by_index j Hj.
      * intros j l' H1 Hj. by_index j Hj.
  - apply (file_update_fails_without_title_or_terminator _ _ (text_of doc_open)).
    + reflexivity.
    + right. intros j l' H1 Hj. by_index j Hj.
Defined.

(** C5. When the line two places after the terminator exists, is not the
    expected heading and does not start with a hash and a space,
    [file_update] writes the file once, with three lines put in right after
    the terminator line: an empty line, the heading, an empty line.  The
    lines up to the terminator keep their place and every line after it is
    found again three places further down. *)
Theorem heading_inserted
    (w : world) (filename : Path) (original title line2 : string) (i : nat) :
  files w !! filename = Some original ->
  terminator (lines_of original) i ->
  (scan (lines_of original) 0 (None, None)).2 = Some title ->
  lines_of original !! (i + 2) = Some line2 ->
  line2 ≠ "# " +:+ title ->
  Py.startswith "# " line2 = false ->
  ∃ text,
    file_update filename w =
      (inr tt, World (<[filename := text]> (files w)) (dirs w) (stdout w)
                     (written w ++ [(filename, text)])) ∧
    length (lines_of text) = length (lines_of original) + 3 ∧
    (∀ j, j <= i -> lines_of text !! j = lines_of original !! j) ∧
    lines_of text !! (i + 1) = Some "" ∧
    lines_of text !! (i + 2) = Some ("# " +:+ title) ∧
    lines_of text !! (i + 3) = Some "" ∧
    (∀ j, i < j -> lines_of text !! (j + 3) = lines_of original !! j).
Proof.
  intros Hfile Hterm Htitle Hline2 Hne Hstart.
  pose proof (lookup_lt_Some _ _ _ Hline2) as Hlen.
  pose proof (scan_terminator _ _ Hterm) as Hscan.
  rewrite Hscan in Htitle. cbn [snd] in Htitle.
  eexists. split.
  { rewrite (file_update_unfold _ _ _ Hfile). cbn zeta.
    rewrite Hscan, Htitle, Hline2, Hstart.
    rewrite bool_decide_eq_false_2 by done. reflexivity. }
  rewrite lines_of_text_of; first last.
  { apply Forall_app. split; [apply Forall_take, split_sep_free|].
    repeat (apply Forall_cons; split; [try done|]).
    - eapply heading_no_LF, last_title_no_LF; [|done]. by intros ? [=].
    - apply Forall_drop, split_sep_free. }
  { intros Hnil. apply (f_equal length) in Hnil.
    rewrite inserted_length in Hnil by done. simpl in Hnil. lia. }
  split_and!.
  - by apply inserted_length.
  - intros j Hj. by apply inserted_before.
  - pose proof (inserted_at _ _ (heading title) Hlen 0) as H0.
    rewrite Nat.add_0_r in H0. apply H0. lia.
  - replace (i + 2) with (i + 1 + 1) by lia. rewrite inserted_at by (done || lia). done.
  - replace (i + 3) with (i + 1 + 2) by lia. rewrite inserted_at by (done || lia). done.
  - intros j Hj. by apply inserted_after.
Qed.

Lemma heading_inserted_witness :
  ∃ text,
    file_update post_md (world_of doc_paragraph) =
      (inr tt, World (<[post_md := text]> (files (world_of doc_paragraph)))
                     (dirs (world_of doc_paragraph)) (stdout (world_of doc_paragraph))
                     (written (world_of doc_paragraph) ++ [(post_md, text)])) ∧
    length (lines_of text) = length (lines_of (text_of doc_paragraph)) + 3 ∧
    (∀ j, j <= 3 -> lines_of text !! j = lines_of (text_of doc_paragraph) !! j) ∧
    lines_of text !! (3 + 1) = Some "" ∧
    lines_of text !! (3 + 2) = Some "# Hello World" ∧
    lines_of text !! (3 + 3) = Some "" ∧
    (∀ j, 3 < j -> lines_of text !! (j + 3) = lines_of (text_of doc_paragraph) !! j).
Proof.
  apply (heading_inserted (world_of doc_paragraph) post_md (text_of doc_paragraph)
           "Hello World" "First paragraph." 3).
  - reflexivity.
  - split_and!; [lia | by eexists | ]. intros j l' H1 H2 Hj. by_index j Hj.
  - reflexivity.
  - reflexivity.
  - intros H. vm_compute in H. discriminate H.
  - reflexivity.
Defined.

(** The file ends up with its heading in place, whichever branch ran. *)
Lemma file_update_leaves_heading (w w' : world) (filename : Path) :
  file_update filename w = (inr tt, w') ->
  ∃ text, files w' !! filename = Some text ∧ heading_in_place text.
Proof.
  intros Hrun.
  destruct (files w !! filename) as [original|] eqn:Hfile;
    [|by rewrite file_update_missing in Hrun].
  rewrite (file_update_unfold _ _ _ Hfile) in Hrun. cbn zeta in Hrun.
  destruct (scan (lines_of original) 0 (None, None)) as [[i|] [title|]] eqn:Hscan;
    try (by destruct (_ !! _)); try done.
  destruct (lines_of original !! (i + 2)) as [line2|] eqn:Hline2; [|done].
  pose proof (lookup_lt_Some _ _ _ Hline2) as Hlen.
  assert (all_chars (not_char Py.LF) (heading title) = true) as Hhead.
  { destruct (scan_inv _ _ _ _ _ Hscan) as (pre & l & post & Heq & Hi & Hpre & Hl);
      [lia | by intros ? [=] |].
    rewrite Hi in Hl. rewrite Heq, scan_break in Hscan by done.
    injection Hscan as _ Ht.
    eapply heading_no_LF, last_title_no_LF; [|done]. by intros ? [=]. }
  pose proof (split_sep_free Py.LF original) as Hfree. fold (lines_of original) in Hfree.
  destruct (bool_decide (line2 = heading title)) eqn:Hsame.
  { (* already correct: nothing was written *)
    injection Hrun as <-. apply bool_decide_eq_true in Hsame as ->.
    exists original. split; [done|]. by exists i, title. }
  destruct (Py.startswith "# " line2).
  - (* the heading was replaced *)
    injection Hrun as <-. eexists. split; [apply lookup_insert_eq|].
    exists i, title. rewrite lines_of_text_of; first last.
    { by apply Forall_insert. }
    { intros Hnil. apply (f_equal length) in Hnil. rewrite length_insert in Hnil.
      simpl in Hnil. lia. }
    split; [|by apply list_lookup_insert_eq].
    apply (scan_stable _ _ _ _ Hscan); [lia|]. by rewrite take_insert_ge by lia.
  - (* the heading was inserted *)
    injection Hrun as <-. eexists. split; [apply lookup_insert_eq|].
    exists i, title. rewrite lines_of_text_of; first last.
    { apply Forall_app. split; [by apply Forall_take|].
      repeat (apply Forall_cons; split; [try done|]). by apply Forall_drop. }
    { intros Hnil. apply (f_equal length) in Hnil.
      rewrite length_app in Hnil. simpl in Hnil. lia. }
    split; [apply (scan_stable _ _ _ _ Hscan); [lia|exact (inserted_take _ _ _ Hlen)]|].
    replace (i + 2) with (i + 1 + 1) by lia.
    exact (inserted_at _ _ _ Hlen 1 ltac:(lia)).
Qed.

(** With the heading in place, [file_update] takes its first branch. *)
Lemma heading_in_place_run (w : world) (filename : Path) (text : string) :
  files w !! filename = Some text ->
  heading_in_place text ->
  file_update filename w = (inr tt, w).
Proof.
  intros Hfile (i & title & Hscan & Hline2).
  rewrite (file_update_unfold _ _ _ Hfile). cbn zeta.
  rewrite Hscan, Hline2. by rewrite bool_decide_eq_true_2.
Qed.

(** C2. Running [file_update] again on a file it has processed without
    raising, rewritten or not, finds the expected heading in place, two
    lines after the terminator: the second run returns without a write and
    leaves the whole tree, write log included, as it found it.  This holds
    on any later tree in which the file still has the content the first run
    left, so also after the other files of a pass were processed. *)
Theorem file_update_idempotent (w w' w'' : world) (filename : Path) :
  file_update filename w = (inr tt, w') ->
  files w'' !! filename = files w' !! filename ->
  file_update filename w'' = (inr tt, w'') ∧
  ∃ text, files w'' !! filename = Some text ∧ heading_in_place text.
Proof.
  intros (text & Htext & Hplace)%file_update_leaves_heading Hsame.
  rewrite <-Hsame in Htext. split; [|by eauto].
  by apply (heading_in_place_run _ _ text).
Qed.

Lemma file_update_idempotent_witness :
  file_update post_md (file_update post_md (world_of doc_paragraph)).2 =
    (inr tt, (file_update post_md (world_of doc_paragraph)).2) ∧
  ∃ text, files (file_update post_md (world_of doc_paragraph)).2 !! post_md = Some text ∧
          heading_in_place text.
Proof.
  apply (file_update_idempotent (world_of doc_paragraph)
           (file_update post_md (world_of doc_paragraph)).2).
  - vm_compute. reflexivity.
  - reflexivity.
Defined.

(** ** The title value *)

Section title_value.
Implicit Types (s v p : string).

Lemma endswith_app p v : Py.endswith p (v +:+ p) = true.
Proof.
  induction v as [|c v IH].
  - rewrite str_app_nil_l. destruct p; cbn [Py.endswith]; by rewrite bool_decide_eq_true_2.
  - rewrite str_app_cons. cbn [Py.endswith]. by rewrite IH, orb_true_r.
Qed.

Lemma take_str_app v s : Py.take_str (Py.len v) (v +:+ s) = v.
Proof.
  induction v as [|c v IH]; [by destruct s|].
  rewrite str_app_cons. simpl. by rewrite IH.
Qed.

Lemma len_app v s : Py.len (v +:+ s) = Py.len v + Py.len s.
Proof.
  unfold Py.len. induction v as [|c v IH]; [done|].
  rewrite str_app_cons. simpl. by rewrite IH.
Qed.

Lemma removesuffix_app p v : p ≠ "" -> Py.removesuffix p (v +:+ p) = v.
Proof.
  intros Hp. unfold Py.removesuffix.
  rewrite bool_decide_eq_true_2, endswith_app by done. cbn [andb].
  rewrite len_app. replace (Py.len v + Py.len p - Py.len p) with (Py.len v) by lia.
  apply take_str_app.
Qed.

Lemma removesuffix_id p s : Py.endswith p s = false -> Py.removesuffix p s = s.
Proof. intros H. unfold Py.removesuffix. by rewrite H, andb_false_r. Qed.

Lemma removeprefix_id p s : Py.startswith p s = false -> Py.removeprefix p s = s.
Proof. intros H. unfold Py.removeprefix. by rewrite H. Qed.
End title_value.

(** C4, as the code has it. The title value is made of the
    whitespace-delimited tokens of the line after the first one, joined by
    single spaces: it is the value of the line re-spaced that way, where it
    is what follows the first token and its space.  Then at most one double
    quote is taken off its very start and at most one off its very end, and
    nothing in between: a value in double quotes loses both, a value with
    neither at its ends is kept as it is. *)
Theorem title_of_line_tokens (line tok : string) (ws : list string) :
  Py.split line = tok :: ws ->
  title_of_line (tok +:+ " " +:+ Py.join " " ws) = title_of_line line ∧
  (∃ p s, Py.join " " ws = p +:+ title_of_line line +:+ s ∧
          (p = "" ∨ p = DQUOTE) ∧ (s = "" ∨ s = DQUOTE)) ∧
  (∀ v, Py.join " " ws = DQUOTE +:+ v +:+ DQUOTE -> title_of_line line = v) ∧
  (Py.startswith DQUOTE (Py.join " " ws) = false ->
   Py.endswith DQUOTE (Py.join " " ws) = false ->
   title_of_line line = Py.join " " ws).
Proof.
  intros Hsplit.
  pose proof (split_tokens line) as Htok. rewrite Hsplit in Htok.
  apply Forall_cons in Htok as [Htok Hws].
  assert (title_of_line line =
          Py.removesuffix DQUOTE (Py.removeprefix DQUOTE (Py.join " " ws))) as Hval.
  { unfold title_of_line. by rewrite Hsplit. }
  split_and!.
  - rewrite Hval. unfold title_of_line.
    change (" " +:+ ?x) with (String Py.SP x).
    rewrite split_token_space by done. by rewrite split_join.
  - destruct (removeprefix_ends DQUOTE (Py.join " " ws)) as (p & Hp & Hp').
    destruct (removesuffix_ends DQUOTE (Py.removeprefix DQUOTE (Py.join " " ws)))
      as (s & Hs & Hs').
    exists p, s. rewrite Hval. by rewrite <-Hs.
  - intros v Hv. rewrite Hval, Hv. unfold Py.removeprefix. cbn.
    by apply removesuffix_app.
  - intros H1 H2. rewrite Hval, (removeprefix_id _ _ H1). by apply removesuffix_id.
Qed.

Lemma title_of_line_tokens_witness :
  title_of_line ("title:" +:+ " " +:+ Py.join " " ["Hello:"; "World"]) =
    title_of_line "  title:  Hello:   World " ∧
  title_of_line "  title:  Hello:   World " = "Hello: World".
Proof.
  pose proof (title_of_line_tokens "  title:  Hello:   World " "title:" ["Hello:"; "World"]
                eq_refl) as (H1 & _ & _ & H4).
  split; [exact H1|]. apply H4; reflexivity.
Defined.

(** C4, as it is worded, fails on a title with two spaces in a row: the
    value that comes out occurs nowhere in the line. *)
Lemma title_value_not_in_line :
  Py.contains "title: " "title: Hello  World" = true ∧
  title_of_line "title: Hello  World" = "Hello World" ∧
  Py.contains (title_of_line "title: Hello  World") "title: Hello  World" = false.
Proof. by vm_compute. Qed.

(** ** The navigation builder: the splice *)

Section splice.
Implicit Types (s sub : string).

Lemma find_from_absent i sub s :
  Py.contains sub s = false -> Py.find_from i sub s = (-1)%Z.
Proof.
  revert i. induction s as [|c s IH]; intros i; cbn [Py.contains Py.find_from];
    rewrite orb_false_iff; intros [-> H]; [done|]. by apply IH.
Qed.

Lemma slice_to_minus_one s : Py.slice_to s (-1) = Py.take_str (Py.len s - 1) s.
Proof. unfold Py.slice_to. cbn [Z.ltb Z.compare]. f_equal. lia. Qed.
End splice.

(** C1, as the code has it. When the marker does not occur in
    [mkdocs.yml], [find] gives [-1] and the slice up to [-1] keeps
    everything but the last character: the new document is the old one
    without its last character, followed by the navigation block.  The
    backup holds the old document. *)
Theorem splice_without_marker (w : world) (nav_lines : list string) (original : string) :
  files w !! Path_of "mkdocs.yml" = Some original ->
  Py.contains NAV_KEY original = false ->
  ∃ w', splice nav_lines w = (inr tt, w') ∧
    files w' !! Path_of "mkdocs.yml" =
      Some (Py.take_str (Py.len original - 1) original +:+ text_of nav_lines) ∧
    files w' !! Path_of ".bak.mkdocs.yml" = Some original.
Proof.
  intros Hfile Habsent.
  unfold splice, mbind, M_bind, read_text. rewrite Hfile. cbn zeta.
  unfold Py.find. rewrite (find_from_absent _ _ _ Habsent), slice_to_minus_one.
  eexists. split; [reflexivity|]. cbn [files write_text snd].
  split; [apply lookup_insert_eq|].
  rewrite lookup_insert_ne by (by vm_compute). apply lookup_insert_eq.
Qed.

Lemma splice_without_marker_witness :
  ∃ w', splice [NAV_KEY; "nav:"] (site_world "site_name: crumbs") = (inr tt, w') ∧
    files w' !! Path_of "mkdocs.yml" =
      Some (Py.take_str (Py.len "site_name: crumbs" - 1) "site_name: crumbs" +:+
            text_of [NAV_KEY; "nav:"]) ∧
    files w' !! Path_of ".bak.mkdocs.yml" = Some "site_name: crumbs".
Proof.
  apply (splice_without_marker (site_world "site_name: crumbs") [NAV_KEY; "nav:"]
           "site_name: crumbs"); reflexivity.
Defined.

(** C1, as it is worded, fails on a configuration without the marker: what
    [gen_nav] writes starts with the old text less its last character, so
    it is not the navigation block alone. *)
Lemma gen_nav_without_marker_keeps_content :
  Py.contains NAV_KEY "site_name: crumbs" = false ∧
  ∃ block,
    (build_nav (site_world "site_name: crumbs")).1 = inr block ∧
    (gen_nav (site_world "site_name: crumbs")).1 = inr tt ∧
    files (gen_nav (site_world "site_name: crumbs")).2 !! Path_of "mkdocs.yml" =
      Some ("site_name: crumb" +:+ text_of block) ∧
    "site_name: crumb" +:+ text_of block ≠ text_of block.
Proof.
  split; [reflexivity|]. eexists. split; [by vm_compute|].
  split; [by vm_compute|]. split; [by vm_compute|]. by vm_compute.
Qed.

(** ** The section lister *)

Section ordering.
Implicit Types (p q d : Path) (a b n : string).

Lemma str_compare_refl a : String.compare a a = Eq.
Proof.
  destruct (String.compare a a) eqn:H; [done|..];
    pose proof (String.compare_antisym a a) as Ha; rewrite H in Ha; done.
Qed.

Lemma parts_compare_antisym p q : parts_compare p q = CompOpp (parts_compare q p).
Proof.
  revert q. induction p as [|a p IH]; intros [|b q]; simpl; try done.
  rewrite (String.compare_antisym a b).
  destruct (String.compare b a); simpl; auto.
Qed.

Global Instance path_le_total : Total path_le.
Proof.
  intros p q. unfold path_le, path_lt.
  rewrite (parts_compare_antisym q p).
  destruct (parts_compare p q); simpl; auto.
Qed.

Lemma parts_compare_child d a b :
  parts_compare (d ++ [a]) (d ++ [b]) = String.compare a b.
Proof.
  induction d as [|c d IH]; simpl.
  - by destruct (String.compare a b).
  - by rewrite str_compare_refl.
Qed.

Lemma path_le_child d a b : path_le (d ++ [a]) (d ++ [b]) -> String.le a b.
Proof.
  unfold path_le, path_lt, String.le, String.leb.
  rewrite parts_compare_child, (String.compare_antisym a b).
  by destruct (String.compare b a).
Qed.

Lemma name_child d n : name (d ++ [n]) = n.
Proof. apply last_last. Qed.

Lemma stem_child d n : stem (d ++ [n]) = stem [n].
Proof. unfold stem. by rewrite name_child. Qed.

Lemma Sorted_names d (l : list Path) :
  Forall (fun x => ∃ n, x = d ++ [n]) l ->
  Sorted path_le l -> Sorted String.le (name <$> l).
Proof.
  intros Hall Hs. induction Hs as [|x l Hs IH Hhd]; [constructor|].
  apply Forall_cons in Hall as [(n & ->) Hall]. csimpl.
  constructor; [by apply IH|].
  destruct Hhd as [|y l Hxy]; csimpl; constructor.
  apply Forall_cons in Hall as [(m & ->) _].
  rewrite !name_child. by eapply path_le_child.
Qed.

Lemma children_names d (l : list Path) :
  Forall (fun x => ∃ n, x = d ++ [n]) l ->
  l = (fun n => d ++ [n]) <$> (name <$> l).
Proof.
  induction 1 as [|x l (n & ->) _ IH]; [done|]. csimpl.
  by rewrite name_child, <-IH.
Qed.

Lemma filter_all_index d (entries : list string) :
  (∀ n, n ∈ entries -> stem [n] = "index") ->
  filter (fun x => "index" ≠ stem x) ((fun n => d ++ [n]) <$> entries) = [].
Proof.
  induction entries as [|n entries IH]; intros Hindex; [done|]. csimpl.
  rewrite filter_cons_False.
  - apply IH. intros m Hm. apply Hindex. by right.
  - intros Hn. apply Hn. rewrite stem_child. symmetry. apply Hindex. by left.
Qed.

Lemma sorted_files_unfold (w : world) (section_slug : string) (entries : list string) :
  dirs w !! Path_of ("docs/" +:+ section_slug) = Some entries ->
  sorted_files section_slug w =
  (inr (sorted (filter (fun x => "index" ≠ stem x)
                  ((fun n => Path_of ("docs/" +:+ section_slug) ++ [n]) <$> entries))), w).
Proof.
  intros H. unfold sorted_files, mbind, M_bind, iterdir. by rewrite H.
Qed.
End ordering.

(** C6. For a section whose directory exists, [sorted_files] returns,
    without touching the tree, the entries of the directory whose stem is
    not [index], each once per occurrence, in ascending order of their
    file names compared character by character; no entry of stem [index]
    is among them, and the result is empty when every entry has that
    stem.  It is the only arrangement of these entries in that order. *)
Theorem sorted_files_spec (w : world) (section_slug : string) (entries : list string) :
  dirs w !! Path_of ("docs/" +:+ section_slug) = Some entries ->
  ∃ fs, sorted_files section_slug w = (inr fs, w) ∧
    fs ≡ₚ filter (fun x => "index" ≠ stem x)
            ((fun n => Path_of ("docs/" +:+ section_slug) ++ [n]) <$> entries) ∧
    StronglySorted String.le (name <$> fs) ∧
    Forall (fun x => stem x ≠ "index") fs ∧
    ((∀ n, n ∈ entries -> stem [n] = "index") -> fs = []).
Proof.
  intros Hdir. eexists. split; [by apply sorted_files_unfold|].
  set (d := Path_of ("docs/" +:+ section_slug)).
  set (kept := filter (fun x => "index" ≠ stem x) ((fun n => d ++ [n]) <$> entries)).
  assert (sorted kept ≡ₚ kept) as Hperm by apply merge_sort_Permutation.
  split_and!.
  - done.
  - apply Sorted_StronglySorted; [apply _|].
    apply (Sorted_names d); [|apply Sorted_merge_sort, _].
    rewrite Hperm. apply Forall_forall. intros x [_ Hx]%list_elem_of_filter.
    apply list_elem_of_fmap in Hx as (n & -> & _). eauto.
  - rewrite Hperm. apply Forall_forall. by intros x [Hx _]%list_elem_of_filter.
  - intros Hindex. apply Permutation_nil_r. rewrite Hperm.
    unfold kept. by rewrite filter_all_index.
Qed.

Lemma sorted_files_spec_witness :
  ∃ fs, sorted_files "blog" (site_world "") = (inr fs, site_world "") ∧
    fs ≡ₚ filter (fun x => "index" ≠ stem x)
            ((fun n => Path_of ("docs/" +:+ "blog") ++ [n]) <$>
             ["c.md"; "index.md"; "a.md"; "my-first_post.md"; "b.md"]) ∧
    StronglySorted String.le (name <$> fs) ∧
    Forall (fun x => stem x ≠ "index") fs ∧
    ((∀ n, n ∈ ["c.md"; "index.md"; "a.md"; "my-first_post.md"; "b.md"] ->
           stem [n] = "index") -> fs = []).
Proof.
  apply (sorted_files_spec (site_world "") "blog"). reflexivity.
Defined.

Example sorted_files_blog :
  (sorted_files "blog" (site_world "")).1 =
  inr [["docs"; "blog"; "a.md"]; ["docs"; "blog"; "b.md"]; ["docs"; "blog"; "c.md"];
       ["docs"; "blog"; "my-first_post.md"]].
Proof. by vm_compute. Qed.

(** ** The navigation builder: the block *)

Section nav.
Implicit Types (w : world) (fs : list Path) (lines : list string).

Lemma sorted_files_printed w out section_slug :
  sorted_files section_slug (printed w out) =
  ((sorted_files section_slug w).1, printed w out).
Proof.
  unfold sorted_files, mbind, M_bind, iterdir. simpl.
  by destruct (dirs w !! _).
Qed.

Lemma sorted_files_world w section_slug : (sorted_files section_slug w).2 = w.
Proof.
  unfold sorted_files, mbind, M_bind, iterdir. by destruct (dirs w !! _).
Qed.

Lemma append_leaves (leaf : Path -> string) fs lines :
  fold_left (fun lines filename => lines ++ [leaf filename]) fs lines = lines ++ (leaf <$> fs).
Proof.
  revert lines. induction fs as [|f fs IH]; intros lines; simpl.
  - by rewrite (right_id_L [] (++)).
  - rewrite IH. by rewrite <-(assoc_L (++)).
Qed.

Lemma section_nav_run w section fs :
  (sorted_files (Py.lower section) w).1 = inr fs ->
  ∃ out,
    section_nav section w =
    (inr (["  - " +:+ Py.title section +:+ ":";
           "    - " +:+ Py.lower section +:+ "/index.md"] ++
          (nav_leaf (Py.lower section) <$> fs)),
     printed w out).
Proof.
  intros Hfs. unfold section_nav, mbind, M_bind.
  pose proof (sorted_files_world w (Py.lower section)) as Hw.
  destruct (sorted_files (Py.lower section) w) as [[e|fs'] w']. { done. }
  simpl in Hfs, Hw. simplify_eq. rewrite append_leaves.
  eexists [_]. reflexivity.
Qed.
End nav.

(** C7. With the files the section lister gives for each of the four
    sections, their stems being of ASCII characters, the navigation block
    is: the marker line, the line [nav:], then for blog, guides, resources
    and setups in that order the header line with the section name in
    title case, the entry of its index page, and one leaf for each listed
    file in the lister's order.  A leaf pairs the display title, the stem
    with dashes and underscores turned into spaces and then put in title
    case, with the section slug, a slash and the stem. *)
Theorem nav_block_layout (w : world) (blog guides resources setups : list Path) :
  (sorted_files "blog" w).1 = inr blog ->
  (sorted_files "guides" w).1 = inr guides ->
  (sorted_files "resources" w).1 = inr resources ->
  (sorted_files "setups" w).1 = inr setups ->
  ascii_stems blog ->
  ascii_stems guides ->
  ascii_stems resources ->
  ascii_stems setups ->
  let leaf (slug : string) (f : Path) : string :=
    "    - '" +:+
    Py.title (Py.replace "_"%char " "%char (Py.replace "-"%char " "%char (stem f))) +:+
    "': " +:+ slug +:+ "/" +:+ stem f in
  (build_nav w).1 =
    inr (["# NAV"; "nav:"] ++
         ["  - Blog:"; "    - blog/index.md"] ++ (leaf "blog" <$> blog) ++
         ["  - Guides:"; "    - guides/index.md"] ++ (leaf "guides" <$> guides) ++
         ["  - Resources:"; "    - resources/index.md"] ++ (leaf "resources" <$> resources) ++
         ["  - Setups:"; "    - setups/index.md"] ++ (leaf "setups" <$> setups)) ∧
  leaf "blog" ["docs"; "blog"; "my-first_post.md"] = "    - 'My First Post': blog/my-first_post".
Proof.
  intros Hb Hg Hr Hs _ _ _ _ leaf. split; [|by vm_compute].
  unfold build_nav, sections. cbn [extend_nav]. unfold mbind, M_bind.
  destruct (section_nav_run w "blog" blog Hb) as (o1 & ->).
  destruct (section_nav_run (printed w o1) "guides" guides) as (o2 & ->).
  { by rewrite sorted_files_printed. }
  destruct (section_nav_run (printed (printed w o1) o2) "resources" resources) as (o3 & ->).
  { by rewrite !sorted_files_printed. }
  destruct (section_nav_run (printed (printed (printed w o1) o2) o3) "setups" setups)
    as (o4 & ->).
  { by rewrite !sorted_files_printed. }
  cbn [fst mret M_ret]. f_equal.
  rewrite <-!(assoc_L (++)). reflexivity.
Qed.

Lemma nav_block_layout_witness :
  (build_nav (site_world "")).1 =
    inr ["# NAV"; "nav:";
         "  - Blog:"; "    - blog/index.md";
         "    - 'A': blog/a"; "    - 'B': blog/b"; "    - 'C': blog/c";
         "    - 'My First Post': blog/my-first_post";
         "  - Guides:"; "    - guides/index.md";
         "  - Resources:"; "    - resources/index.md";
         "  - Setups:"; "    - setups/index.md";
         "    - 'Bash': setups/Bash"; "    - 'Vim': setups/vim"].
Proof.
  pose proof (nav_block_layout (site_world "")
    [["docs"; "blog"; "a.md"]; ["docs"; "blog"; "b.md"]; ["docs"; "blog"; "c.md"];
     ["docs"; "blog"; "my-first_post.md"]]
    [] []
    [["docs"; "setups"; "Bash.md"]; ["docs"; "setups"; "vim.md"]]) as H.
  destruct H as [H _];
    [by vm_compute | by vm_compute | by vm_compute | by vm_compute
    | apply (bool_decide_unpack _); by vm_compute
    | apply (bool_decide_unpack _); by vm_compute
    | apply (bool_decide_unpack _); by vm_compute
    | apply (bool_decide_unpack _); by vm_compute |].
  exact H.
Defined.

(** * Further properties *)

(** ** [file_update]: the other branches, and what is left alone *)

Section file_update_more.
Implicit Types (w : world) (filename : Path) (lines : list string).

(** A loop index with a line after it is the terminator index. *)
Lemma scan_terminator_inv lines i (t : option string) :
  scan lines 0 (None, None) = (Some i, t) ->
  i + 1 < length lines ->
  terminator lines i.
Proof.
  intros Hscan Hi.
  destruct (scan_inv _ _ _ _ _ Hscan) as (pre & l & post & -> & -> & Hpre & Hl);
    [done | by intros ? [=] |].
  cbn [Nat.add] in *. unfold stops in Hl. apply andb_true_iff in Hl as [Hc Hone].
  apply Nat.leb_le in Hone. split_and!.
  - done.
  - exists l. split; [|done]. by apply list_lookup_middle.
  - intros j l' Hj Hji Hl'. rewrite lookup_app_l in Hl' by done.
    pose proof (Hpre j l' Hl') as Hstop. unfold stops in Hstop.
    apply andb_false_iff in Hstop as [Hstop|Hstop]; [done|].
    apply Nat.leb_gt in Hstop. lia.
Qed.

(** What a run of [file_update] that returns has read and found. *)
Lemma file_update_returns w w' filename :
  file_update filename w = (inr tt, w') ->
  ∃ original i title line2,
    files w !! filename = Some original ∧
    scan (lines_of original) 0 (None, None) = (Some i, Some title) ∧
    lines_of original !! (i + 2) = Some line2 ∧
    all_chars (not_char Py.LF) (heading title) = true ∧
    ((line2 = heading title ∧ w' = w) ∨
     (line2 ≠ heading title ∧ Py.startswith "# " line2 = true ∧
      w' = World (<[filename := text_of (<[i + 2 := heading title]> (lines_of original))]> (files w))
                 (dirs w) (stdout w)
                 (written w ++
                  [(filename, text_of (<[i + 2 := heading title]> (lines_of original)))])) ∨
     (line2 ≠ heading title ∧ Py.startswith "# " line2 = false ∧
      w' = World (<[filename := text_of (take (i + 1) (lines_of original) ++
                      [""; heading title; ""] ++ drop (i + 1) (lines_of original))]> (files w))
                 (dirs w) (stdout w)
                 (written w ++
                  [(filename, text_of (take (i + 1) (lines_of original) ++
                      [""; heading title; ""] ++ drop (i + 1) (lines_of original)))]))).
Proof.
  intros Hrun.
  destruct (files w !! filename) as [original|] eqn:Hfile;
    [|by rewrite file_update_missing in Hrun].
  rewrite (file_update_unfold _ _ _ Hfile) in Hrun. cbn zeta in Hrun.
  destruct (scan (lines_of original) 0 (None, None)) as [[i|] [title|]] eqn:Hscan;
    try (by destruct (_ !! _)); try done.
  destruct (lines_of original !! (i + 2)) as [line2|] eqn:Hline2; [|done].
  pose proof (lookup_lt_Some _ _ _ Hline2) as Hlen.
  exists original, i, title, line2. split_and!; [done..| |].
  { destruct (scan_inv _ _ _ _ _ Hscan) as (pre & l & post & Heq & Hi & Hpre & Hl);
      [lia | by intros ? [=] |].
    rewrite Hi in Hl. rewrite Heq, scan_break in Hscan by done.
    injection Hscan as _ Ht.
    eapply heading_no_LF, last_title_no_LF; [|done]. by intros ? [=]. }
  destruct (bool_decide (line2 = heading title)) eqn:Hsame.
  { apply bool_decide_eq_true in Hsame. injection Hrun as <-. by left. }
  apply bool_decide_eq_false in Hsame.
  destruct (Py.startswith "# " line2) eqn:Hstart; injection Hrun as <-.
  - right; left. done.
  - right; right. done.
Qed.

(** A run that raises has changed nothing. *)
Lemma file_update_raises w w' filename e :
  file_update filename w = (inl e, w') -> w' = w.
Proof.
  intros Hrun.
  destruct (files w !! filename) as [original|] eqn:Hfile.
  - rewrite (file_update_unfold _ _ _ Hfile) in Hrun. cbn zeta in Hrun.
    destruct (scan (lines_of original) 0 (None, None)) as [[i|] [title|]];
      repeat (destruct (_ !! _)); simplify_eq; try done;
      destruct (bool_decide _); simplify_eq; try done;
      destruct (Py.startswith _ _); by simplify_eq.
  - rewrite file_update_missing in Hrun by done. by simplify_eq.
Qed.
End file_update_more.

(** X1. When the line two places after the terminator starts with a hash
    and a space but is not the expected heading, [file_update] writes the
    file once with that line replaced by the heading: the same number of
    lines, and every other line as it was. *)
Theorem heading_replaced
    (w : world) (filename : Path) (original title line2 : string) (i : nat) :
  files w !! filename = Some original ->
  terminator (lines_of original) i ->
  (scan (lines_of original) 0 (None, None)).2 = Some title ->
  lines_of original !! (i + 2) = Some line2 ->
  line2 ≠ "# " +:+ title ->
  Py.startswith "# " line2 = true ->
  ∃ text,
    file_update filename w =
      (inr tt, World (<[filename := text]> (files w)) (dirs w) (stdout w)
                     (written w ++ [(filename, text)])) ∧
    length (lines_of text) = length (lines_of original) ∧
    lines_of text !! (i + 2) = Some ("# " +:+ title) ∧
    (∀ j, j ≠ i + 2 -> lines_of text !! j = lines_of original !! j).
Proof.
  intros Hfile Hterm Htitle Hline2 Hne Hstart.
  pose proof (lookup_lt_Some _ _ _ Hline2) as Hlen.
  pose proof (scan_terminator _ _ Hterm) as Hscan.
  rewrite Hscan in Htitle. cbn [snd] in Htitle.
  eexists. split.
  { rewrite (file_update_unfold _ _ _ Hfile). cbn zeta.
    rewrite Hscan, Htitle, Hline2, Hstart.
    rewrite bool_decide_eq_false_2 by done. reflexivity. }
  rewrite lines_of_text_of; first last.
  { apply Forall_insert; [apply split_sep_free|].
    eapply heading_no_LF, last_title_no_LF; [|done]. by intros ? [=]. }
  { intros Hnil. apply (f_equal length) in Hnil. rewrite length_insert in Hnil.
    simpl in Hnil. lia. }
  split_and!.
  - apply length_insert.
  - by apply list_lookup_insert_eq.
  - intros j Hj. by apply list_lookup_insert_ne.
Qed.

Lemma heading_replaced_witness :
  ∃ text,
    file_update post_md (world_of doc_old_heading) =
      (inr tt, World (<[post_md := text]> (files (world_of doc_old_heading)))
                     (dirs (world_of doc_old_heading)) (stdout (world_of doc_old_heading))
                     (written (world_of doc_old_heading) ++ [(post_md, text)])) ∧
    length (lines_of text) = length (lines_of (text_of doc_old_heading)) ∧
    lines_of text !! (2 + 2) = Some "# New Title" ∧
    (∀ j, j ≠ 2 + 2 -> lines_of text !! j = lines_of (text_of doc_old_heading) !! j).
Proof.
  apply (heading_replaced (world_of doc_old_heading) post_md (text_of doc_old_heading)
           "New Title" "# Old Heading" 2).
  - reflexivity.
  - split_and!; [lia | by eexists | ]. intros j l' H1 H2 Hj. by_index j Hj.
  - reflexivity.
  - reflexivity.
  - intros H. vm_compute in H. discriminate H.
  - reflexivity.
Defined.

(** X2. [file_update] is all or nothing and touches one file only: a run
    that raises leaves the tree as it was; a run that returns has either
    written nothing, or made exactly one write, to the file it was given,
    with no other file, no directory and no output changed. *)
Theorem file_update_one_write (w w' : world) (filename : Path) (r : exn + unit) :
  file_update filename w = (r, w') ->
  ((∃ e, r = inl e) ∧ w' = w) ∨
  (r = inr tt ∧
   (w' = w ∨
    ∃ text, w' = World (<[filename := text]> (files w)) (dirs w) (stdout w)
                       (written w ++ [(filename, text)]))).
Proof.
  intros Hrun. destruct r as [e|[]].
  - left. split; [by eexists|]. by eapply file_update_raises.
  - right. split; [done|].
    apply file_update_returns in Hrun
      as (original & i & title & line2 & _ & _ & _ & _ & [[_ ->]|[(_ & _ & ->)|(_ & _ & ->)]]);
      eauto.
Qed.

Lemma file_update_one_write_witness :
  (((∃ e, (file_update post_md (world_of doc_open)).1 = inl e) ∧
    (file_update post_md (world_of doc_open)).2 = world_of doc_open) ∨
   ((file_update post_md (world_of doc_open)).1 = inr tt ∧
    ((file_update post_md (world_of doc_open)).2 = world_of doc_open ∨
     ∃ text, (file_update post_md (world_of doc_open)).2 =
             World (<[post_md := text]> (files (world_of doc_open)))
                   (dirs (world_of doc_open)) (stdout (world_of doc_open))
                   (written (world_of doc_open) ++ [(post_md, text)])))) ∧
  (((∃ e, (file_update post_md (world_of doc_old_heading)).1 = inl e) ∧
    (file_update post_md (world_of doc_old_heading)).2 = world_of doc_old_heading) ∨
   ((file_update post_md (world_of doc_old_heading)).1 = inr tt ∧
    ((file_update post_md (world_of doc_old_heading)).2 = world_of doc_old_heading ∨
     ∃ text, (file_update post_md (world_of doc_old_heading)).2 =
             World (<[post_md := text]> (files (world_of doc_old_heading)))
                   (dirs (world_of doc_old_heading)) (stdout (world_of doc_old_heading))
                   (written (world_of doc_old_heading) ++ [(post_md, text)])))).
Proof.
  split.
  - apply (file_update_one_write (world_of doc_open) _ post_md).
    by destruct (file_update post_md (world_of doc_open)).
  - apply (file_update_one_write (world_of doc_old_heading) _ post_md).
    by destruct (file_update post_md (world_of doc_old_heading)).
Defined.

(** X3. A run of [file_update] that returns never touches the front
    matter: the file it leaves has the lines of the old one up to and
    including the terminator line, the same terminator index, and either
    as many lines as before or three more. *)
Theorem front_matter_preserved (w w' : world) (filename : Path) (original : string) :
  file_update filename w = (inr tt, w') ->
  files w !! filename = Some original ->
  ∃ text i,
    files w' !! filename = Some text ∧
    terminator (lines_of original) i ∧
    terminator (lines_of text) i ∧
    take (S i) (lines_of text) = take (S i) (lines_of original) ∧
    (length (lines_of text) = length (lines_of original) ∨
     length (lines_of text) = length (lines_of original) + 3).
Proof.
  intros Hrun Hfile.
  apply file_update_returns in Hrun
    as (original' & i & title & line2 & Hfile' & Hscan & Hline2 & Hhead & Hcase).
  rewrite Hfile in Hfile'. injection Hfile' as <-.
  pose proof (lookup_lt_Some _ _ _ Hline2) as Hlen.
  pose proof (split_sep_free Py.LF original) as Hfree. fold (lines_of original) in Hfree.
  assert (terminator (lines_of original) i) as Hterm
    by (eapply scan_terminator_inv; [done|lia]).
  destruct Hcase as [[_ ->]|[(_ & _ & ->)|(_ & _ & ->)]].
  - exists original, i. split_and!; auto.
  - eexists _, i. cbn [files]. split; [apply lookup_insert_eq|].
    rewrite lines_of_text_of; first last.
    { by apply Forall_insert. }
    { intros Hnil. apply (f_equal length) in Hnil. rewrite length_insert in Hnil.
      simpl in Hnil. lia. }
    assert (take (S i) (<[i + 2 := heading title]> (lines_of original)) =
            take (S i) (lines_of original)) as Htake by (by rewrite take_insert_ge by lia).
    split_and!; [done| |done|left; apply length_insert].
    eapply scan_terminator_inv; [by apply (scan_stable _ _ _ _ Hscan); [lia|]|].
    rewrite length_insert. lia.
  - eexists _, i. cbn [files]. split; [apply lookup_insert_eq|].
    rewrite lines_of_text_of; first last.
    { apply Forall_app. split; [by apply Forall_take|].
      repeat (apply Forall_cons; split; [try done|]). by apply Forall_drop. }
    { intros Hnil. apply (f_equal length) in Hnil.
      rewrite length_app in Hnil. simpl in Hnil. lia. }
    pose proof (inserted_take _ _ (heading title) Hlen) as Htake.
    pose proof (inserted_length _ _ (heading title) Hlen) as Hlen3.
    split_and!; [done| |exact Htake|right; exact Hlen3].
    eapply scan_terminator_inv; [by apply (scan_stable _ _ _ _ Hscan); [lia|exact Htake]|].
    rewrite Hlen3. lia.
Qed.

Lemma front_matter_preserved_witness :
  ∃ text i,
    files (file_update post_md (world_of doc_paragraph)).2 !! post_md = Some text ∧
    terminator (lines_of (text_of doc_paragraph)) i ∧
    terminator (lines_of text) i ∧
    take (S i) (lines_of text) = take (S i) (lines_of (text_of doc_paragraph)) ∧
    (length (lines_of text) = length (lines_of (text_of doc_paragraph)) ∨
     length (lines_of text) = length (lines_of (text_of doc_paragraph)) + 3).
Proof.
  apply (front_matter_preserved (world_of doc_paragraph)).
  - vm_compute. reflexivity.
  - reflexivity.
Defined.

(** ** [section_update] and the pass over the sections *)

Section passes.
Implicit Types (w : world) (f g : Path) (fs : list Path) (l : list string).

Lemma for_each_cons {A} (body : A -> M unit) (x : A) (xs : list A) w :
  for_each body (x :: xs) w =
  match body x w with
  | (inl e, w') => (inl e, w')
  | (inr _, w') => for_each body xs w'
  end.
Proof. reflexivity. Qed.

Lemma sorted_files_same_dirs w w' section_slug :
  dirs w = dirs w' -> (sorted_files section_slug w).1 = (sorted_files section_slug w').1.
Proof.
  intros Hdirs. unfold sorted_files, mbind, M_bind, iterdir. rewrite Hdirs.
  by destruct (dirs w' !! _).
Qed.

Lemma section_update_unfold section w :
  section_update section w =
  match (sorted_files (Py.lower section) w).1 with
  | inl e => (inl e, w)
  | inr fs => for_each file_update fs w
  end.
Proof.
  unfold section_update, mbind, M_bind.
  pose proof (sorted_files_world w (Py.lower section)) as Hw.
  destruct (sorted_files (Py.lower section) w) as [[e|fs] w0]; simpl in *; by subst.
Qed.

Lemma file_update_frame w w' g (r : exn + unit) :
  file_update g w = (r, w') ->
  dirs w' = dirs w ∧ stdout w' = stdout w ∧
  ∀ f, f ≠ g -> files w' !! f = files w !! f.
Proof.
  intros Hrun. destruct r as [e|[]].
  - apply file_update_raises in Hrun as ->. done.
  - apply file_update_returns in Hrun
      as (original & i & title & line2 & _ & _ & _ & _ & [[_ ->]|[(_ & _ & ->)|(_ & _ & ->)]]);
      cbn [dirs stdout files]; split_and!; try done;
      intros f Hf; by rewrite lookup_insert_ne.
Qed.

Lemma heading_ok_kept w w' f g (r : exn + unit) :
  file_update g w = (r, w') -> heading_ok w f -> heading_ok w' f.
Proof.
  intros Hrun Hok. destruct (decide (f = g)) as [->|Hne].
  - destruct r as [e|[]].
    + by apply file_update_raises in Hrun as ->.
    + by apply file_update_leaves_heading in Hrun.
  - destruct Hok as (text & Htext & Hplace). exists text. split; [|done].
    destruct (file_update_frame _ _ _ _ Hrun) as (_ & _ & Hfiles).
    by rewrite Hfiles.
Qed.

Lemma for_each_file_update_frame fs w w' (r : exn + unit) :
  for_each file_update fs w = (r, w') ->
  dirs w' = dirs w ∧ stdout w' = stdout w ∧
  ∀ f, f ∉ fs -> files w' !! f = files w !! f.
Proof.
  revert w. induction fs as [|g fs IH]; intros w Hrun.
  - by injection Hrun as <- <-.
  - rewrite for_each_cons in Hrun.
    destruct (file_update g w) as [[e|[]] w1] eqn:Hg.
    + injection Hrun as <- <-. destruct (file_update_frame _ _ _ _ Hg) as (? & ? & Hf).
      split_and!; [done..|]. intros f Hin. apply Hf. intros ->. apply Hin. by left.
    + destruct (file_update_frame _ _ _ _ Hg) as (Hd & Ho & Hf).
      destruct (IH _ Hrun) as (Hd' & Ho' & Hf').
      split_and!; [congruence..|]. intros f Hin.
      rewrite Hf', Hf; [done| |].
      * intros ->. apply Hin. by left.
      * intros ?. apply Hin. by right.
Qed.

Lemma for_each_file_update_post fs w w' :
  for_each file_update fs w = (inr tt, w') ->
  (∀ f, heading_ok w f -> heading_ok w' f) ∧ (∀ f, f ∈ fs -> heading_ok w' f).
Proof.
  revert w. induction fs as [|g fs IH]; intros w Hrun.
  - injection Hrun as <-. split; [done|]. intros f Hf. by apply elem_of_nil in Hf.
  - rewrite for_each_cons in Hrun.
    destruct (file_update g w) as [[e|[]] w1] eqn:Hg; [done|].
    destruct (IH _ Hrun) as [Hkept Hdone]. split.
    + intros f Hok. eapply Hkept, heading_ok_kept; done.
    + intros f [->|Hf]%elem_of_cons; [|by apply Hdone].
      by apply Hkept, (file_update_leaves_heading w).
Qed.

Lemma for_each_file_update_noop fs w :
  (∀ f, f ∈ fs -> heading_ok w f) -> for_each file_update fs w = (inr tt, w).
Proof.
  induction fs as [|g fs IH]; intros Hok; [done|].
  rewrite for_each_cons.
  destruct (Hok g) as (text & Htext & Hplace); [by left|].
  rewrite (heading_in_place_run _ _ _ Htext Hplace).
  apply IH. intros f Hf. apply Hok. by right.
Qed.

Lemma for_each_file_update_fails fs w w' e :
  for_each file_update fs w = (inl e, w') ->
  ∃ pre f post, fs = pre ++ f :: post ∧
    for_each file_update pre w = (inr tt, w') ∧
    file_update f w' = (inl e, w').
Proof.
  revert w. induction fs as [|g fs IH]; intros w Hrun; [done|].
  rewrite for_each_cons in Hrun.
  destruct (file_update g w) as [[e'|[]] w1] eqn:Hg.
  - injection Hrun as -> <-. pose proof (file_update_raises _ _ _ _ Hg) as ->.
    by exists [], g, fs.
  - destruct (IH _ Hrun) as (pre & f & post & -> & Hpre & Hf).
    exists (g :: pre), f, post. split_and!; [done| |done].
    by rewrite for_each_cons, Hg.
Qed.

(** The pass over a list of sections. *)
Lemma sections_frame l w w' (r : exn + unit) :
  for_each section_update l w = (r, w') ->
  dirs w' = dirs w ∧ stdout w' = stdout w ∧
  ∀ f, (∀ s, s ∈ l -> ¬ listed_in w s f) -> files w' !! f = files w !! f.
Proof.
  revert w. induction l as [|s l IH]; intros w Hrun.
  - by injection Hrun as <- <-.
  - rewrite for_each_cons, section_update_unfold in Hrun.
    destruct (sorted_files (Py.lower s) w).1 as [e|fs] eqn:Hfs.
    { by injection Hrun as <- <-. }
    destruct (for_each file_update fs w) as [[e|[]] w1] eqn:Hs.
    + injection Hrun as <- <-.
      destruct (for_each_file_update_frame _ _ _ _ Hs) as (? & ? & Hf).
      split_and!; [done..|]. intros f Hout. apply Hf. intros Hin.
      apply (Hout s); [by left|]. by exists fs.
    + destruct (for_each_file_update_frame _ _ _ _ Hs) as (Hd & Ho & Hf).
      destruct (IH _ Hrun) as (Hd' & Ho' & Hf').
      split_and!; [congruence..|]. intros f Hout.
      rewrite Hf', Hf; [done| |].
      * intros Hin. apply (Hout s); [by left|]. by exists fs.
      * intros s' Hs' (fs' & Hfs' & Hin). apply (Hout s'); [by right|].
        exists fs'. split; [|done]. by rewrite (sorted_files_same_dirs w w1).
Qed.

Lemma sections_post l w w' :
  for_each section_update l w = (inr tt, w') ->
  (∀ f, heading_ok w f -> heading_ok w' f) ∧
  ∀ s, s ∈ l ->
    (∃ fs, (sorted_files (Py.lower s) w).1 = inr fs) ∧
    ∀ f, listed_in w s f -> heading_ok w' f.
Proof.
  revert w. induction l as [|s l IH]; intros w Hrun.
  - injection Hrun as <-. split; [done|]. intros s Hs. by apply elem_of_nil in Hs.
  - rewrite for_each_cons, section_update_unfold in Hrun.
    destruct (sorted_files (Py.lower s) w).1 as [e|fs] eqn:Hfs; [done|].
    destruct (for_each file_update fs w) as [[e|[]] w1] eqn:Hs; [done|].
    destruct (for_each_file_update_frame _ _ _ _ Hs) as (Hd & _ & _).
    destruct (for_each_file_update_post _ _ _ Hs) as [Hkept1 Hdone1].
    destruct (IH _ Hrun) as [Hkept Hdone]. split.
    + intros f Hok. by apply Hkept, Hkept1.
    + intros s' [->|Hs']%elem_of_cons.
      * split; [by eexists|]. intros f (fs' & Hfs' & Hin).
        rewrite Hfs in Hfs'. injection Hfs' as <-. by apply Hkept, Hdone1.
      * destruct (Hdone s' Hs') as [(fs' & Hfs') Hall]. split.
        -- exists fs'. by rewrite (sorted_files_same_dirs w w1).
        -- intros f (fs'' & Hfs'' & Hin). apply Hall. exists fs''. split; [|done].
           by rewrite <-(sorted_files_same_dirs w w1).
Qed.

Lemma sections_noop l w :
  (∀ s, s ∈ l ->
     (∃ fs, (sorted_files (Py.lower s) w).1 = inr fs) ∧
     ∀ f, listed_in w s f -> heading_ok w f) ->
  for_each section_update l w = (inr tt, w).
Proof.
  induction l as [|s l IH]; intros Hok; [done|].
  rewrite for_each_cons, section_update_unfold.
  destruct (Hok s) as [(fs & Hfs) Hall]; [by left|]. rewrite Hfs.
  rewrite for_each_file_update_noop.
  - apply IH. intros s' Hs'. apply Hok. by right.
  - intros f Hf. apply Hall. by exists fs.
Qed.
End passes.

(** X4. After a pass of [inject_titles] that returns, every file the
    section lister gives for any of the four sections has its heading in
    place: two lines after its terminator stands the heading of its title. *)
Theorem inject_titles_headings (w w' : world) (s : string) (f : Path) :
  inject_titles w = (inr tt, w') ->
  s ∈ sections ->
  listed_in w' s f ->
  ∃ text i title,
    files w' !! f = Some text ∧
    terminator (lines_of text) i ∧
    (scan (lines_of text) 0 (None, None)).2 = Some title ∧
    lines_of text !! (i + 2) = Some ("# " +:+ title).
Proof.
  intros Hrun Hs (fs & Hfs & Hin).
  destruct (sections_frame _ _ _ _ Hrun) as (Hdirs & _ & _).
  destruct (sections_post _ _ _ Hrun) as [_ Hdone].
  destruct (Hdone s Hs) as [_ Hall].
  destruct (Hall f) as (text & Htext & i & title & Hscan & Hline).
  { exists fs. split; [|done]. by rewrite (sorted_files_same_dirs w w'). }
  exists text, i, title. split_and!; [done| |by rewrite Hscan|done].
  eapply scan_terminator_inv; [done|].
  apply lookup_lt_Some in Hline. lia.
Qed.

Lemma inject_titles_headings_witness :
  ∃ i,
    files (inject_titles (blog_world doc_paragraph doc_old_heading)).2
      !! ["docs"; "blog"; "b.md"] =
      Some (text_of ["---"; "title: New Title"; "---"; ""; "# New Title"; ""; "Text."; ""]) ∧
    terminator
      (lines_of (text_of ["---"; "title: New Title"; "---"; ""; "# New Title"; ""; "Text."; ""]))
      i ∧
    lines_of (text_of ["---"; "title: New Title"; "---"; ""; "# New Title"; ""; "Text."; ""])
      !! (i + 2) = Some "# New Title".
Proof.
  destruct (inject_titles_headings (blog_world doc_paragraph doc_old_heading)
              (inject_titles (blog_world doc_paragraph doc_old_heading)).2
              "blog" ["docs"; "blog"; "b.md"])
    as (text & i & title & Hfile & Hterm & Htitle & Hline).
  - vm_compute. reflexivity.
  - by left.
  - eexists. split; [vm_compute; reflexivity|]. right. left.
  - vm_compute in Hfile. injection Hfile as <-.
    vm_compute in Htitle. injection Htitle as <-.
    exists i. split_and!; [by vm_compute|exact Hterm|exact Hline].
Defined.

(** X5. A second pass of [inject_titles] over a tree a first pass has left
    returns too and changes nothing: no file, no write log entry. *)
Theorem inject_titles_idempotent (w w' : world) :
  inject_titles w = (inr tt, w') ->
  inject_titles w' = (inr tt, w').
Proof.
  intros Hrun.
  destruct (sections_frame _ _ _ _ Hrun) as (Hdirs & _ & _).
  destruct (sections_post _ _ _ Hrun) as [_ Hdone].
  apply sections_noop. intros s Hs. destruct (Hdone s Hs) as [(fs & Hfs) Hall]. split.
  - exists fs. by rewrite (sorted_files_same_dirs w' w).
  - intros f (fs' & Hfs' & Hin). apply Hall. exists fs'. split; [|done].
    by rewrite (sorted_files_same_dirs w w').
Qed.

Lemma inject_titles_idempotent_witness :
  inject_titles (inject_titles (blog_world doc_paragraph doc_old_heading)).2 =
  (inr tt, (inject_titles (blog_world doc_paragraph doc_old_heading)).2).
Proof.
  apply (inject_titles_idempotent (blog_world doc_paragraph doc_old_heading)).
  vm_compute. reflexivity.
Defined.

(** X6. Whether it returns or raises, [inject_titles] leaves the
    directories and the output as they were and changes no file but those
    the section lister gives for one of the four sections; an index page
    is never among them. *)
Theorem inject_titles_only_listed (w w' : world) (r : exn + unit) (f : Path) :
  inject_titles w = (r, w') ->
  (∀ s, s ∈ sections -> ¬ listed_in w s f) ->
  dirs w' = dirs w ∧ stdout w' = stdout w ∧ files w' !! f = files w !! f.
Proof.
  intros Hrun Hout. destruct (sections_frame _ _ _ _ Hrun) as (Hd & Ho & Hf).
  split_and!; [done..|]. by apply Hf.
Qed.

Lemma inject_titles_only_listed_witness :
  dirs (inject_titles (blog_world doc_paragraph doc_old_heading)).2 =
    dirs (blog_world doc_paragraph doc_old_heading) ∧
  stdout (inject_titles (blog_world doc_paragraph doc_old_heading)).2 =
    stdout (blog_world doc_paragraph doc_old_heading) ∧
  files (inject_titles (blog_world doc_paragraph doc_old_heading)).2
    !! ["docs"; "blog"; "index.md"] = Some "Welcome.".
Proof.
  apply (inject_titles_only_listed (blog_world doc_paragraph doc_old_heading) _
           (inject_titles (blog_world doc_paragraph doc_old_heading)).1).
  - by destruct (inject_titles (blog_world doc_paragraph doc_old_heading)).
  - intros s Hs (fs & Hfs & Hin).
    repeat (apply elem_of_cons in Hs as [->|Hs]);
      [..|by apply elem_of_nil in Hs];
      vm_compute in Hfs; injection Hfs as <-;
      repeat (apply elem_of_cons in Hin as [Hin|Hin]; [discriminate Hin|]);
      by apply elem_of_nil in Hin.
Defined.

(** X7. When the directory of a section exists and [section_update]
    raises, it is [file_update] that raised, on one of the listed files:
    the files listed before it were all processed, the error is the one of
    that file, and no file outside those processed ones was changed. *)
Theorem section_update_stops_at_first_failure
    (w w' : world) (section : string) (fs : list Path) (e : exn) :
  (sorted_files (Py.lower section) w).1 = inr fs ->
  section_update section w = (inl e, w') ->
  ∃ pre f post,
    fs = pre ++ f :: post ∧
    for_each file_update pre w = (inr tt, w') ∧
    file_update f w' = (inl e, w') ∧
    ∀ g, g ∉ pre -> files w' !! g = files w !! g.
Proof.
  intros Hfs Hrun. rewrite section_update_unfold, Hfs in Hrun.
  destruct (for_each_file_update_fails _ _ _ _ Hrun) as (pre & f & post & -> & Hpre & Hf).
  exists pre, f, post. split_and!; [done..|].
  by destruct (for_each_file_update_frame _ _ _ _ Hpre) as (_ & _ & ?).
Qed.

Lemma section_update_stops_at_first_failure_witness :
  ∃ pre f post,
    [["docs"; "blog"; "a.md"]; ["docs"; "blog"; "b.md"]] = pre ++ f :: post ∧
    for_each file_update pre (blog_world doc_paragraph doc_untitled) =
      (inr tt, (section_update "blog" (blog_world doc_paragraph doc_untitled)).2) ∧
    file_update f (section_update "blog" (blog_world doc_paragraph doc_untitled)).2 =
      (inl UnboundLocalError, (section_update "blog" (blog_world doc_paragraph doc_untitled)).2) ∧
    ∀ g, g ∉ pre ->
      files (section_update "blog" (blog_world doc_paragraph doc_untitled)).2 !! g =
      files (blog_world doc_paragraph doc_untitled) !! g.
Proof.
  apply (section_update_stops_at_first_failure (blog_world doc_paragraph doc_untitled) _ "blog").
  - vm_compute. reflexivity.
  - vm_compute. reflexivity.
Defined.

(** ** The section lister: order of the entries, index pages *)

Section lister_more.
Implicit Types (w : world) (d : Path) (base ext : string).

Lemma rfind_none c s : all_chars (not_char c) s = true -> rfind c s = None.
Proof.
  induction s as [|a s IH]; [done|]. simpl.
  rewrite andb_true_iff. unfold not_char at 1. rewrite negb_true_iff.
  intros [Ha Hs]. by rewrite IH, Ha.
Qed.

Lemma rfind_last_dot c base ext :
  all_chars (not_char c) ext = true ->
  rfind c (base +:+ String c ext) = Some (Py.len base).
Proof.
  intros Hext. induction base as [|a base IH].
  - rewrite str_app_nil_l. simpl. by rewrite rfind_none, ascii_eqb_refl.
  - rewrite str_app_cons. simpl. by rewrite IH.
Qed.

(** The stem of [base.ext], for an extension without a dot. *)
Lemma stem_ext d base ext :
  base ≠ "" -> ext ≠ "" -> all_chars (not_char "."%char) ext = true ->
  stem (d ++ [base +:+ String "."%char ext]) = base.
Proof.
  intros Hbase Hext Hdot. rewrite stem_child. unfold stem, name. cbn [List.last].
  rewrite rfind_last_dot by done.
  assert (0 < Py.len base) by (destruct base; [done|simpl; lia]).
  assert (0 < Py.len ext) by (destruct ext; [done|simpl; lia]).
  rewrite len_app. cbn [Py.len String.length].
  replace (0 <? Py.len base) with true by (symmetry; by apply Nat.ltb_lt).
  replace (Py.len base <? Py.len base + S (String.length ext) - 1) with true
    by (symmetry; apply Nat.ltb_lt; unfold Py.len in *; lia).
  apply take_str_app.
Qed.

Lemma sorted_files_elem w section_slug entries fs x :
  dirs w !! Path_of ("docs/" +:+ section_slug) = Some entries ->
  (sorted_files section_slug w).1 = inr fs ->
  x ∈ fs ->
  "index" ≠ stem x ∧ ∃ n, n ∈ entries ∧ x = Path_of ("docs/" +:+ section_slug) ++ [n].
Proof.
  intros Hdir Hfs Hx. rewrite (sorted_files_unfold _ _ _ Hdir) in Hfs.
  injection Hfs as <-. unfold sorted in Hx.
  rewrite merge_sort_Permutation in Hx.
  apply list_elem_of_filter in Hx as [Hstem Hx].
  apply list_elem_of_fmap in Hx as (n & -> & Hn). eauto.
Qed.
End lister_more.

(** X8. What [sorted_files] returns does not depend on the order in which
    the directory yields its entries: two listings of the same entries
    give the same list of files. *)
Theorem sorted_files_order_independent
    (w w' : world) (section_slug : string) (entries entries' : list string) :
  dirs w !! Path_of ("docs/" +:+ section_slug) = Some entries ->
  dirs w' !! Path_of ("docs/" +:+ section_slug) = Some entries' ->
  entries ≡ₚ entries' ->
  (sorted_files section_slug w).1 = (sorted_files section_slug w').1.
Proof.
  intros Hdir Hdir' Hperm.
  rewrite (sorted_files_unfold _ _ _ Hdir), (sorted_files_unfold _ _ _ Hdir').
  cbn [fst]. f_equal.
  set (d := Path_of ("docs/" +:+ section_slug)).
  set (kept := filter (fun x => "index" ≠ stem x) ((fun n => d ++ [n]) <$> entries)).
  set (kept' := filter (fun x => "index" ≠ stem x) ((fun n => d ++ [n]) <$> entries')).
  assert (kept ≡ₚ kept') as Hkept by (unfold kept, kept'; by rewrite Hperm).
  assert (∀ l, Forall (fun x => ∃ n, x = d ++ [n])
                 (filter (fun x => "index" ≠ stem x) ((fun n => d ++ [n]) <$> l))) as Hch.
  { intros l. apply Forall_forall. intros x [_ Hx]%list_elem_of_filter.
    apply list_elem_of_fmap in Hx as (n & -> & _). eauto. }
  assert (Forall (fun x => ∃ n, x = d ++ [n]) (sorted kept)) as Hc
    by (unfold sorted; rewrite merge_sort_Permutation; apply Hch).
  assert (Forall (fun x => ∃ n, x = d ++ [n]) (sorted kept')) as Hc'
    by (unfold sorted; rewrite merge_sort_Permutation; apply Hch).
  rewrite (children_names d _ Hc), (children_names d _ Hc'). f_equal.
  apply (Sorted_unique String.le).
  - apply (Sorted_names d); [done|apply Sorted_merge_sort, _].
  - apply (Sorted_names d); [done|apply Sorted_merge_sort, _].
  - unfold sorted. by rewrite !merge_sort_Permutation, Hkept.
Qed.

Lemma sorted_files_order_independent_witness :
  (sorted_files "blog" (site_world "")).1 =
  (sorted_files "blog"
     (World ∅ {[ ["docs"; "blog"] := ["my-first_post.md"; "b.md"; "a.md"; "index.md"; "c.md"] ]}
            [] [])).1.
Proof.
  apply (sorted_files_order_independent _ _ "blog"
           ["c.md"; "index.md"; "a.md"; "my-first_post.md"; "b.md"]
           ["my-first_post.md"; "b.md"; "a.md"; "index.md"; "c.md"]).
  - reflexivity.
  - reflexivity.
  - apply Permutation_cons_app
      with (l1 := ["my-first_post.md"; "b.md"; "a.md"; "index.md"]) (l2 := []).
    apply Permutation_cons_app with (l1 := ["my-first_post.md"; "b.md"; "a.md"]) (l2 := []).
    apply Permutation_cons_app with (l1 := ["my-first_post.md"; "b.md"]) (l2 := []).
    reflexivity.
Defined.

(** X9. An entry named [index] or [index.ext], whatever the extension [ext]
    (not empty, no dot in it), is never among the files [sorted_files]
    returns. *)
Theorem index_page_never_listed
    (w : world) (section_slug ext : string) (fs : list Path) :
  (sorted_files section_slug w).1 = inr fs ->
  ext ≠ "" ->
  all_chars (not_char "."%char) ext = true ->
  ((Path_of ("docs/" +:+ section_slug) ++ ["index." +:+ ext]) ∉ fs) ∧
  ((Path_of ("docs/" +:+ section_slug) ++ ["index"]) ∉ fs).
Proof.
  intros Hfs Hext Hdot.
  destruct (dirs w !! Path_of ("docs/" +:+ section_slug)) as [entries|] eqn:Hdir; first last.
  { unfold sorted_files, mbind, M_bind, iterdir in Hfs. by rewrite Hdir in Hfs. }
  split; intros Hin;
    destruct (sorted_files_elem _ _ _ _ _ Hdir Hfs Hin) as [Hstem _]; apply Hstem.
  - change ("index." +:+ ext) with ("index" +:+ String "."%char ext).
    by rewrite stem_ext.
  - by rewrite stem_child.
Qed.

Lemma index_page_never_listed_witness :
  ∃ fs, (sorted_files "blog" (site_world "")).1 = inr fs ∧
    ((Path_of ("docs/" +:+ "blog") ++ ["index." +:+ "md"]) ∉ fs) ∧
    ((Path_of ("docs/" +:+ "blog") ++ ["index"]) ∉ fs).
Proof.
  eexists. split; [by vm_compute|].
  apply (index_page_never_listed (site_world "") "blog" "md"); by vm_compute.
Defined.

(** X10. The leaf of a file named [base.ext], with [base] of ASCII
    characters, is built from [base] alone: its display title is [base]
    with dashes and underscores turned into spaces, in title case, and its
    path is the slug, a slash and [base], without the extension. *)
Theorem nav_leaf_drops_extension (section_slug base ext : string) (d : Path) :
  Py.isascii base = true ->
  base ≠ "" ->
  ext ≠ "" ->
  all_chars (not_char "."%char) ext = true ->
  nav_leaf section_slug (d ++ [base +:+ "." +:+ ext]) =
  "    - '" +:+ Py.title (Py.replace "_"%char " "%char (Py.replace "-"%char " "%char base)) +:+
  "': " +:+ section_slug +:+ "/" +:+ base.
Proof.
  intros _ Hbase Hext Hdot. unfold nav_leaf, display_title.
  change ("." +:+ ext) with (String "."%char ext). by rewrite stem_ext.
Qed.

Lemma nav_leaf_drops_extension_witness :
  nav_leaf "guides" (["docs"; "guides"] ++ ["set-up_vim" +:+ "." +:+ "markdown"]) =
  "    - 'Set Up Vim': guides/set-up_vim".
Proof.
  rewrite (nav_leaf_drops_extension "guides" "set-up_vim" "markdown"); by vm_compute.
Defined.

Section display.
Implicit Types (s : string) (c : ascii).

Lemma len_replace old new s : Py.len (Py.replace old new s) = Py.len s.
Proof. unfold Py.len. induction s as [|c s IH]; [done|]. simpl. by rewrite IH. Qed.

Lemma len_title_from b s : Py.len (Py.title_from b s) = Py.len s.
Proof.
  unfold Py.len. revert b. induction s as [|c s IH]; intros b; [done|]. simpl.
  destruct (Py.islower c); [|destruct (Py.isupper c)]; simpl; by rewrite IH.
Qed.

Lemma not_sep_case c :
  not_sep c = true -> not_sep (Py.to_upper c) = true ∧ not_sep (Py.to_lower c) = true.
Proof. destruct c as [[] [] [] [] [] [] [] []]; by vm_compute. Qed.

Lemma not_sep_title_from b s :
  all_chars not_sep s = true -> all_chars not_sep (Py.title_from b s) = true.
Proof.
  revert b. induction s as [|c s IH]; intros b; [done|]. simpl.
  rewrite andb_true_iff. intros [Hc Hs]. destruct (not_sep_case c Hc) as [Hup Hlow].
  destruct (Py.islower c); [|destruct (Py.isupper c)]; simpl;
    rewrite IH by done; rewrite andb_true_r; by destruct b.
Qed.

Lemma not_sep_replace s :
  all_chars not_sep (Py.replace "_"%char " "%char (Py.replace "-"%char " "%char s)) = true.
Proof.
  induction s as [|c s IH]; [done|]. simpl. rewrite IH, andb_true_r.
  destruct c as [[] [] [] [] [] [] [] []]; by vm_compute.
Qed.
End display.

(** X11. The display title of a file whose stem is of ASCII characters
    has exactly as many characters as the stem, and no dash and no
    underscore is left in it. *)
Theorem display_title_shape (filename : Path) :
  Py.isascii (stem filename) = true ->
  Py.len (display_title filename) = Py.len (stem filename) ∧
  all_chars not_sep (display_title filename) = true.
Proof.
  intros _. unfold display_title, Py.title. split.
  - by rewrite len_title_from, !len_replace.
  - apply not_sep_title_from, not_sep_replace.
Qed.

Lemma display_title_shape_witness :
  Py.len (display_title ["docs"; "blog"; "my-first_post.md"]) = 13 ∧
  all_chars not_sep (display_title ["docs"; "blog"; "my-first_post.md"]) = true.
Proof.
  apply (display_title_shape ["docs"; "blog"; "my-first_post.md"]). reflexivity.
Defined.

(** ** The navigation builder: the marker and the whole run *)

Section marker.
Implicit Types (s sub p a x y : string) (k j : nat).

Lemma drop_str_0 s : Py.drop_str 0 s = s.
Proof. by destruct s. Qed.

Lemma drop_str_app a x : Py.drop_str (Py.len a) (a +:+ x) = x.
Proof.
  induction a as [|c a IH]; [by rewrite str_app_nil_l, drop_str_0|].
  by rewrite str_app_cons.
Qed.

Lemma startswith_app p x : Py.startswith p (p +:+ x) = true.
Proof.
  induction p as [|c p IH]; [done|]. rewrite str_app_cons. simpl.
  by rewrite ascii_eqb_refl, IH.
Qed.

(** Whether [p] starts a string is decided by its first [len p]
    characters. *)
Lemma startswith_app_long p a x :
  Py.len p <= Py.len a -> Py.startswith p (a +:+ x) = Py.startswith p a.
Proof.
  revert a. induction p as [|c p IH]; intros a Hlen; [done|].
  destruct a as [|b a]; [simpl in Hlen; lia|].
  rewrite str_app_cons. simpl. rewrite IH; [done|]. unfold Py.len in *. simpl in Hlen. lia.
Qed.

Lemma startswith_take p k s :
  Py.startswith p (Py.take_str k s) = true -> Py.startswith p s = true.
Proof.
  revert k s. induction p as [|c p IH]; intros k s; [by destruct s|].
  destruct k as [|k], s as [|b s]; simpl; try done.
  rewrite !andb_true_iff. intros [? ?]. eauto.
Qed.

Lemma contains_take sub k s :
  Py.contains sub s = false -> Py.contains sub (Py.take_str k s) = false.
Proof.
  revert k. induction s as [|c s IH]; intros k.
  - by destruct k.
  - cbn [Py.contains]. rewrite orb_false_iff. intros [Hstart Hs].
    destruct k as [|k]; cbn [Py.take_str Py.contains].
    + destruct sub; [done|]. done.
    + rewrite IH by done. rewrite orb_false_r.
      destruct (Py.startswith sub (String c (Py.take_str k s))) eqn:Ht; [|done].
      apply (startswith_take sub (S k) (String c s)) in Ht. congruence.
Qed.

(** Where [find] lands when the text occurs: at the end of a part of the
    string in which it does not occur. *)
Lemma find_from_present i sub s :
  Py.startswith sub "" = false ->
  Py.contains sub s = true ->
  ∃ k, Py.find_from i sub s = (i + Z.of_nat k)%Z ∧ k <= Py.len s ∧
       Py.contains sub (Py.take_str k s) = false.
Proof.
  intros Hsub. revert i. induction s as [|c s IH]; intros i Hs.
  - cbn [Py.contains] in Hs. rewrite Hsub in Hs. done.
  - cbn [Py.contains Py.find_from] in *.
    destruct (Py.startswith sub (String c s)) eqn:Hstart.
    + exists 0. split_and!; [lia|lia|]. cbn [Py.take_str Py.contains]. by rewrite Hsub.
    + cbn [orb] in Hs. destruct (IH (i + 1)%Z Hs) as (k & Hk & Hlen & Hnone).
      exists (S k). split_and!; [lia|unfold Py.len in *; simpl; lia|].
      cbn [Py.take_str Py.contains]. rewrite Hnone, orb_false_r.
      destruct (Py.startswith sub (String c (Py.take_str k s))) eqn:Ht; [|done].
      apply (startswith_take sub (S k) (String c s)) in Ht. congruence.
Qed.

Lemma find_from_app i sub pre x :
  (∀ j, j < Py.len pre -> Py.startswith sub (Py.drop_str j (pre +:+ x)) = false) ->
  Py.startswith sub x = true ->
  Py.find_from i sub (pre +:+ x) = (i + Z.of_nat (Py.len pre))%Z.
Proof.
  revert i. induction pre as [|c pre IH]; intros i Hpre Hx.
  - rewrite str_app_nil_l. destruct x; cbn [Py.find_from]; rewrite Hx; simpl; lia.
  - rewrite str_app_cons. cbn [Py.find_from].
    pose proof (Hpre 0 ltac:(simpl; lia)) as H0. rewrite drop_str_0, str_app_cons in H0.
    rewrite H0, IH; [unfold Py.len; simpl; lia| |done].
    intros j Hj. apply (Hpre (S j)). unfold Py.len in *. simpl. lia.
Qed.

Lemma slice_to_nat s k : k <= Py.len s -> Py.slice_to s (Z.of_nat k) = Py.take_str k s.
Proof.
  intros Hk. unfold Py.slice_to.
  replace (Z.of_nat k <? 0)%Z with false by (symmetry; apply Z.ltb_ge; lia).
  f_equal. lia.
Qed.

(** What [splice] keeps of a document never contains the marker. *)
Lemma kept_no_marker sub s :
  Py.startswith sub "" = false ->
  ∃ k, Py.slice_to s (Py.find sub s) = Py.take_str k s ∧
       Py.contains sub (Py.take_str k s) = false.
Proof.
  intros Hsub. destruct (Py.contains sub s) eqn:Hs.
  - destruct (find_from_present 0 sub s Hsub Hs) as (k & Hk & Hlen & Hnone).
    exists k. unfold Py.find. rewrite Hk, Z.add_0_l. by rewrite slice_to_nat.
  - exists (Py.len s - 1). unfold Py.find.
    rewrite (find_from_absent _ _ _ Hs), slice_to_minus_one.
    split; [done|]. by apply contains_take.
Qed.

(** No occurrence of the marker starts in a part without it and runs into
    a marker put after that part: the marker does not overlap itself. *)
Lemma marker_no_overlap a r :
  a ≠ "" ->
  Py.startswith NAV_KEY a = false ->
  Py.startswith NAV_KEY (a +:+ NAV_KEY +:+ r) = false.
Proof.
  intros Ha Hstart.
  destruct a as [|a1 [|a2 [|a3 [|a4 [|a5 a]]]]]; [done|..].
  5: { rewrite <-Hstart.
       change (String a1 (String a2 (String a3 (String a4 (String a5 a)))) +:+ NAV_KEY +:+ r)
         with (String a1 (String a2 (String a3 (String a4 (String a5 (a +:+ NAV_KEY +:+ r)))))).
       cbn. by repeat (destruct (Py.ascii_eqb _ _); [|done]). }
  all: unfold NAV_KEY; rewrite ?str_app_cons, ?str_app_nil_l;
    cbn [Py.startswith]; unfold Py.ascii_eqb;
    repeat (case_bool_decide; try done; cbn [andb]); try discriminate.
Qed.

Lemma marker_not_early pre r j :
  Py.contains NAV_KEY pre = false ->
  j < Py.len pre ->
  Py.startswith NAV_KEY (Py.drop_str j (pre +:+ NAV_KEY +:+ r)) = false.
Proof.
  revert j. induction pre as [|c pre IH]; intros j Hpre Hj; [simpl in Hj; lia|].
  cbn [Py.contains] in Hpre. apply orb_false_iff in Hpre as [Hstart Hpre].
  destruct j as [|j].
  - rewrite drop_str_0. by apply marker_no_overlap.
  - rewrite str_app_cons. cbn [Py.drop_str]. apply IH; [done|].
    unfold Py.len in *. simpl in Hj. lia.
Qed.

(** So a marker put after such a part is the first one. *)
Lemma find_marker_after pre r :
  Py.contains NAV_KEY pre = false ->
  Py.find NAV_KEY (pre +:+ NAV_KEY +:+ r) = Z.of_nat (Py.len pre).
Proof.
  intros Hpre. unfold Py.find. rewrite find_from_app; [lia| |apply startswith_app].
  intros j Hj. by apply marker_not_early.
Qed.
End marker.

Section gen_nav_run.
Implicit Types (w : world) (nav block : list string) (l : list string).

Lemma printed_nil w : printed w [] = w.
Proof. destruct w. unfold printed. simpl. by rewrite (right_id_L [] (++)). Qed.

Lemma printed_printed w out1 out2 :
  printed (printed w out1) out2 = printed w (out1 ++ out2).
Proof. unfold printed. simpl. by rewrite (assoc_L (++)). Qed.

Lemma section_nav_unfold section w :
  section_nav section w =
  match (sorted_files (Py.lower section) w).1 with
  | inl e => (inl e, w)
  | inr fs =>
      let lines := ["  - " +:+ Py.title section +:+ ":";
                    "    - " +:+ Py.lower section +:+ "/index.md"] ++
                   (nav_leaf (Py.lower section) <$> fs) in
      (inr lines, printed w [text_of lines])
  end.
Proof.
  unfold section_nav, mbind, M_bind.
  pose proof (sorted_files_world w (Py.lower section)) as Hw.
  destruct (sorted_files (Py.lower section) w) as [[e|fs] w0]; simpl in *; subst; [done|].
  by rewrite append_leaves.
Qed.

Lemma extend_nav_cons nav section l w :
  extend_nav nav (section :: l) w =
  match section_nav section w with
  | (inl e, w') => (inl e, w')
  | (inr ls, w') => extend_nav (nav ++ ls) l w'
  end.
Proof. reflexivity. Qed.

(** Building the block only prints; what it returns starts with the lines
    it was given and depends on the directories alone. *)
Lemma extend_nav_spec nav l w :
  (∃ out, (extend_nav nav l w).2 = printed w out) ∧
  (∀ block, (extend_nav nav l w).1 = inr block -> ∃ more, block = nav ++ more) ∧
  (∀ w', dirs w' = dirs w -> (extend_nav nav l w').1 = (extend_nav nav l w).1).
Proof.
  revert nav w. induction l as [|section l IH]; intros nav w.
  - split_and!.
    + exists []. by rewrite printed_nil.
    + intros block [= <-]. exists []. by rewrite (right_id_L [] (++)).
    + done.
  - rewrite extend_nav_cons, section_nav_unfold.
    destruct (sorted_files (Py.lower section) w).1 as [e|fs] eqn:Hfs.
    + split_and!.
      * exists []. by rewrite printed_nil.
      * done.
      * intros w' Hd. rewrite extend_nav_cons, section_nav_unfold.
        by rewrite (sorted_files_same_dirs w' w), Hfs.
    + cbn zeta.
      set (lines := [_; _] ++ (nav_leaf (Py.lower section) <$> fs)).
      destruct (IH (nav ++ lines) (printed w [text_of lines])) as ((out & Hout) & Hpre & Hdet).
      split_and!.
      * exists ([text_of lines] ++ out). by rewrite Hout, printed_printed.
      * intros block Hb. destruct (Hpre block Hb) as (more & ->).
        exists (lines ++ more). by rewrite (assoc_L (++)).
      * intros w' Hd. rewrite extend_nav_cons, section_nav_unfold.
        rewrite (sorted_files_same_dirs w' w), Hfs by done. cbn zeta.
        by apply Hdet.
Qed.

Lemma text_of_block more :
  text_of ([NAV_KEY; "nav:"] ++ more) = NAV_KEY +:+ LFs +:+ text_of ("nav:" :: more).
Proof. reflexivity. Qed.

(** What a run of [gen_nav] that returns has done. *)
Lemma gen_nav_returns w w' :
  gen_nav w = (inr tt, w') ->
  ∃ more out original,
    build_nav w = (inr ([NAV_KEY; "nav:"] ++ more), printed w out) ∧
    files w !! Path_of "mkdocs.yml" = Some original ∧
    w' = World
           (<[Path_of "mkdocs.yml" :=
                Py.slice_to original (Py.find NAV_KEY original) +:+
                text_of ([NAV_KEY; "nav:"] ++ more)]>
              (<[Path_of ".bak.mkdocs.yml" := original]> (files w)))
           (dirs w) (stdout w ++ out)
           ((written w ++ [(Path_of ".bak.mkdocs.yml", original)]) ++
            [(Path_of "mkdocs.yml",
              Py.slice_to original (Py.find NAV_KEY original) +:+
              text_of ([NAV_KEY; "nav:"] ++ more))]).
Proof.
  intros Hrun. unfold gen_nav, mbind, M_bind in Hrun.
  destruct (extend_nav_spec [NAV_KEY; "nav:"] sections w) as ((out & Hout) & Hpre & _).
  fold build_nav in Hout, Hpre.
  destruct (build_nav w) as [[e|block] w0] eqn:Hb; [done|]. cbn [fst snd] in *. subst w0.
  destruct (Hpre block eq_refl) as (more & ->).
  unfold splice, mbind, M_bind, read_text in Hrun. cbn [files printed] in Hrun.
  destruct (files w !! Path_of "mkdocs.yml") as [original|] eqn:Hfile; [|done].
  exists more, out, original. split_and!; [done..|].
  cbn in Hrun. by injection Hrun as <-.
Qed.

(** A run that raises has only printed. *)
Lemma gen_nav_raises w w' e :
  gen_nav w = (inl e, w') -> ∃ out, w' = printed w out.
Proof.
  intros Hrun. unfold gen_nav, mbind, M_bind in Hrun.
  destruct (extend_nav_spec [NAV_KEY; "nav:"] sections w) as ((out & Hout) & _ & _).
  fold build_nav in Hout.
  destruct (build_nav w) as [[e'|block] w0] eqn:Hb; cbn [snd] in *; subst w0.
  - injection Hrun as _ <-. by exists out.
  - unfold splice, mbind, M_bind, read_text in Hrun. cbn [files printed] in Hrun.
    destruct (files w !! Path_of "mkdocs.yml") as [original|] eqn:Hfile.
    + cbn in Hrun. done.
    + injection Hrun as _ <-. by exists out.
Qed.
End gen_nav_run.

Lemma gen_nav_unfold (w w0 : world) (block : list string) (original : string) :
  build_nav w = (inr block, w0) ->
  files w0 !! Path_of "mkdocs.yml" = Some original ->
  gen_nav w =
  (inr tt,
   World (<[Path_of "mkdocs.yml" :=
              Py.slice_to original (Py.find NAV_KEY original) +:+ text_of block]>
            (<[Path_of ".bak.mkdocs.yml" := original]> (files w0)))
         (dirs w0) (stdout w0)
         ((written w0 ++ [(Path_of ".bak.mkdocs.yml", original)]) ++
          [(Path_of "mkdocs.yml",
            Py.slice_to original (Py.find NAV_KEY original) +:+ text_of block)])).
Proof.
  intros Hb Hfile. unfold gen_nav, mbind, M_bind. rewrite Hb.
  unfold splice, mbind, M_bind, read_text. by rewrite Hfile.
Qed.

(** X12. When the marker occurs in [mkdocs.yml], [splice] keeps what stands
    before its first occurrence and replaces the marker and all that
    follows it by the navigation block; the backup gets the old document. *)
Theorem splice_at_marker (w : world) (nav_lines : list string) (pre rest : string) :
  files w !! Path_of "mkdocs.yml" = Some (pre +:+ NAV_KEY +:+ rest) ->
  Py.contains NAV_KEY pre = false ->
  ∃ w', splice nav_lines w = (inr tt, w') ∧
    files w' !! Path_of "mkdocs.yml" = Some (pre +:+ text_of nav_lines) ∧
    files w' !! Path_of ".bak.mkdocs.yml" = Some (pre +:+ NAV_KEY +:+ rest).
Proof.
  intros Hfile Hpre.
  unfold splice, mbind, M_bind, read_text. rewrite Hfile. cbn zeta.
  rewrite find_marker_after by done.
  rewrite slice_to_nat by (rewrite len_app; lia).
  rewrite take_str_app.
  eexists. split; [reflexivity|]. cbn [files write_text snd].
  split; [apply lookup_insert_eq|].
  rewrite lookup_insert_ne by (by vm_compute). apply lookup_insert_eq.
Qed.

Lemma splice_at_marker_witness :
  ∃ w', splice ["# NAV"; "nav:"; "  - New: new.md"]
          (site_world (text_of config_with_nav)) = (inr tt, w') ∧
    files w' !! Path_of "mkdocs.yml" =
      Some (text_of ["site_name: crumbs"; "theme: readthedocs"; ""] +:+
            text_of ["# NAV"; "nav:"; "  - New: new.md"]) ∧
    files w' !! Path_of ".bak.mkdocs.yml" =
      Some (text_of ["site_name: crumbs"; "theme: readthedocs"; ""] +:+ NAV_KEY +:+
            text_of [""; "nav:"; "  - Old: old.md"]).
Proof.
  apply (splice_at_marker (site_world (text_of config_with_nav))); reflexivity.
Defined.

(** X13. A run of [gen_nav] that returns has made exactly two writes: first
    the backup, with the text [mkdocs.yml] had before the run, then
    [mkdocs.yml] itself.  No other file is changed. *)
Theorem gen_nav_two_writes (w w' : world) :
  gen_nav w = (inr tt, w') ->
  ∃ original updated,
    files w !! Path_of "mkdocs.yml" = Some original ∧
    files w' = <[Path_of "mkdocs.yml" := updated]>
                 (<[Path_of ".bak.mkdocs.yml" := original]> (files w)) ∧
    written w' = written w ++
                 [(Path_of ".bak.mkdocs.yml", original); (Path_of "mkdocs.yml", updated)].
Proof.
  intros (more & out & original & _ & Hfile & ->)%gen_nav_returns.
  eexists original, _. cbn [files written].
  split_and!; [done|done|]. by rewrite <-(assoc_L (++)).
Qed.

Lemma gen_nav_two_writes_witness :
  ∃ original updated,
    files (site_world (text_of config_with_nav)) !! Path_of "mkdocs.yml" = Some original ∧
    files (gen_nav (site_world (text_of config_with_nav))).2 =
      <[Path_of "mkdocs.yml" := updated]>
        (<[Path_of ".bak.mkdocs.yml" := original]> (files (site_world (text_of config_with_nav)))) ∧
    written (gen_nav (site_world (text_of config_with_nav))).2 =
      written (site_world (text_of config_with_nav)) ++
      [(Path_of ".bak.mkdocs.yml", original); (Path_of "mkdocs.yml", updated)].
Proof.
  apply (gen_nav_two_writes (site_world (text_of config_with_nav))).
  vm_compute. reflexivity.
Defined.

(** X14. In the document a run of [gen_nav] leaves, the first marker is the
    one that opens the new block: the document is a part of the old one in
    which the marker does not occur, followed by the block.  This holds
    also when the old document had no marker. *)
Theorem gen_nav_marker_first (w w' : world) :
  gen_nav w = (inr tt, w') ->
  ∃ original k block,
    files w !! Path_of "mkdocs.yml" = Some original ∧
    (build_nav w).1 = inr block ∧
    files w' !! Path_of "mkdocs.yml" = Some (Py.take_str k original +:+ text_of block) ∧
    Py.contains NAV_KEY (Py.take_str k original) = false ∧
    Py.find NAV_KEY (Py.take_str k original +:+ text_of block) =
      Z.of_nat (Py.len (Py.take_str k original)).
Proof.
  intros (more & out & original & Hb & Hfile & ->)%gen_nav_returns.
  destruct (kept_no_marker NAV_KEY original eq_refl) as (k & Hk & Hnone).
  exists original, k, ([NAV_KEY; "nav:"] ++ more). rewrite Hb, Hk. cbn [files fst].
  split_and!; [done|done|apply lookup_insert_eq|done|].
  rewrite text_of_block. by apply find_marker_after.
Qed.

Lemma gen_nav_marker_first_witness :
  ∃ original k block,
    files (site_world "site_name: crumbs") !! Path_of "mkdocs.yml" = Some original ∧
    (build_nav (site_world "site_name: crumbs")).1 = inr block ∧
    files (gen_nav (site_world "site_name: crumbs")).2 !! Path_of "mkdocs.yml" =
      Some (Py.take_str k original +:+ text_of block) ∧
    Py.contains NAV_KEY (Py.take_str k original) = false ∧
    Py.find NAV_KEY (Py.take_str k original +:+ text_of block) =
      Z.of_nat (Py.len (Py.take_str k original)).
Proof.
  apply (gen_nav_marker_first (site_world "site_name: crumbs")).
  vm_compute. reflexivity.
Defined.

(** X15. Running [gen_nav] again on the tree a first run has left returns
    too and writes [mkdocs.yml] with the text it already has; the backup
    then holds that same text. *)
Theorem gen_nav_idempotent (w w1 : world) :
  gen_nav w = (inr tt, w1) ->
  ∃ w2, gen_nav w1 = (inr tt, w2) ∧
    files w2 !! Path_of "mkdocs.yml" = files w1 !! Path_of "mkdocs.yml" ∧
    files w2 !! Path_of ".bak.mkdocs.yml" = files w1 !! Path_of "mkdocs.yml".
Proof.
  intros (more & out & original & Hb & Hfile & ->)%gen_nav_returns.
  destruct (kept_no_marker NAV_KEY original eq_refl) as (k & Hk & Hnone).
  rewrite Hk. set (keep := Py.take_str k original).
  set (block := [NAV_KEY; "nav:"] ++ more).
  set (w1 := World _ _ _ _).
  destruct (extend_nav_spec [NAV_KEY; "nav:"] sections w) as (_ & _ & Hdet).
  destruct (extend_nav_spec [NAV_KEY; "nav:"] sections w1) as ((out1 & Hout1) & _ & _).
  fold build_nav in Hdet, Hout1.
  assert (build_nav w1 = (inr block, printed w1 out1)) as Hb1.
  { specialize (Hdet w1 eq_refl). rewrite Hb in Hdet. cbn [fst] in Hdet.
    destruct (build_nav w1) as [r w0]. cbn [fst snd] in *. by subst. }
  assert (files (printed w1 out1) !! Path_of "mkdocs.yml" = Some (keep +:+ text_of block))
    as Hfile1 by apply lookup_insert_eq.
  eexists. split; [by apply (gen_nav_unfold _ _ _ _ Hb1 Hfile1)|].
  assert (Py.slice_to (keep +:+ text_of block) (Py.find NAV_KEY (keep +:+ text_of block)) = keep)
    as Hkeep.
  { unfold block at 2. rewrite text_of_block, find_marker_after by done.
    rewrite slice_to_nat by (rewrite len_app; lia). apply take_str_app. }
  cbn [files printed]. rewrite Hkeep. split.
  - by rewrite !lookup_insert_eq.
  - rewrite lookup_insert_ne by (by vm_compute). by rewrite !lookup_insert_eq.
Qed.

Lemma gen_nav_idempotent_witness :
  ∃ w2, gen_nav (gen_nav (site_world (text_of config_with_nav))).2 = (inr tt, w2) ∧
    files w2 !! Path_of "mkdocs.yml" =
      files (gen_nav (site_world (text_of config_with_nav))).2 !! Path_of "mkdocs.yml" ∧
    files w2 !! Path_of ".bak.mkdocs.yml" =
      files (gen_nav (site_world (text_of config_with_nav))).2 !! Path_of "mkdocs.yml".
Proof.
  apply (gen_nav_idempotent (site_world (text_of config_with_nav))).
  vm_compute. reflexivity.
Defined.

(** X16. A run of [gen_nav] that raises, for a missing section directory
    or a missing [mkdocs.yml], has written nothing: every file is as it
    was, no backup was made, and the directories are unchanged. *)
Theorem gen_nav_error_writes_nothing (w w' : world) (e : exn) :
  gen_nav w = (inl e, w') ->
  files w' = files w ∧ written w' = written w ∧ dirs w' = dirs w.
Proof. by intros (out & ->)%gen_nav_raises. Qed.

Lemma gen_nav_error_writes_nothing_witness :
  files (gen_nav (blog_world doc_paragraph doc_done)).2 =
    files (blog_world doc_paragraph doc_done) ∧
  written (gen_nav (blog_world doc_paragraph doc_done)).2 =
    written (blog_world doc_paragraph doc_done) ∧
  dirs (gen_nav (blog_world doc_paragraph doc_done)).2 =
    dirs (blog_world doc_paragraph doc_done).
Proof.
  apply (gen_nav_error_writes_nothing (blog_world doc_paragraph doc_done) _ FileNotFoundError).
  vm_compute. reflexivity.
Defined.

(** ** rename_setups.py: the copies *)

Section rename.
Implicit Types (w : world) (d : Path) (n m t : string) (l : list string).

Local Abbreviation strip := (Py.removeprefix "setup_").

Lemma for_each_R_cons {A} (body : A -> R unit) (x : A) (xs : list A) w :
  for_each_R body (x :: xs) w =
  match body x w with
  | (inl e, w') => (inl e, w')
  | (inr _, w') => for_each_R body xs w'
  end.
Proof. reflexivity. Qed.

Lemma removeprefix_app p t : Py.removeprefix p (p +:+ t) = t.
Proof. unfold Py.removeprefix. by rewrite startswith_app, drop_str_app. Qed.

Lemma strip_cases m : m = strip m ∨ m = "setup_" +:+ strip m.
Proof.
  destruct (removeprefix_ends "setup_" m) as (q & Hq & [->| ->]); [left|right]; done.
Qed.

Lemma prefixed_longer t : "setup_" +:+ t ≠ t.
Proof.
  intros H. apply (f_equal Py.len) in H. rewrite len_app in H.
  unfold Py.len in H. simpl in H. lia.
Qed.

Lemma child_inj d n m : d ++ [n] = d ++ [m] -> n = m.
Proof. intros H. apply (inj (app d)) in H. by injection H. Qed.

(** One turn of the loop that does not raise: the file was read and its
    text written under the name without the prefix. *)
Lemma rename_file_returns d m w w1 :
  rename_file (d ++ [m]) w = (inr tt, w1) ->
  ∃ text,
    files w !! (d ++ [m]) = Some text ∧
    w1 = World (<[d ++ [strip m] := text]> (files w)) (dirs w) (stdout w)
               (written w ++ [(d ++ [strip m], text)]).
Proof.
  intros Hrun. unfold rename_file, bind_R, with_name, lift, read_text, write_text in Hrun.
  rewrite name_child, removelast_last in Hrun.
  destruct (bool_decide (m = "")); [done|].
  destruct (_ || _ || _); [done|].
  match type of Hrun with
  | context [match ?x with Some _ => _ | None => _ end] =>
      destruct x as [text|] eqn:Hf; [|done]
  end.
  injection Hrun as <-. exists text. split; [exact Hf|reflexivity].
Qed.

Lemma rename_loop_copy d n t l w w' :
  n = "setup_" +:+ t ->
  ("setup_" +:+ n) ∉ l ->
  for_each_R rename_file ((fun m => d ++ [m]) <$> l) w = (inr tt, w') ->
  files w' !! (d ++ [n]) = files w !! (d ++ [n]) ∧
  (n ∈ l -> ∃ text, files w !! (d ++ [n]) = Some text ∧ files w' !! (d ++ [t]) = Some text) ∧
  (∀ text, files w !! (d ++ [n]) = Some text -> files w !! (d ++ [t]) = Some text ->
           files w' !! (d ++ [t]) = Some text).
Proof.
  intros Hn. revert w. induction l as [|m l IH]; intros w Hnot Hrun.
  - injection Hrun as <-. split_and!; [done| |done]. intros Hin. by apply elem_of_nil in Hin.
  - rewrite fmap_cons, for_each_R_cons in Hrun.
    destruct (rename_file (d ++ [m]) w) as [[e|[]] w1] eqn:Hm; [done|].
    apply rename_file_returns in Hm as (text_m & Hread & ->).
    apply not_elem_of_cons in Hnot as [Hm Hnot].
    destruct (IH _ Hnot Hrun) as (Hsrc & Hdone & Hkeep). cbn [files] in *.
    assert (strip m ≠ n) as Hstrip.
    { intros Heq. destruct (strip_cases m) as [Hc|Hc]; rewrite Heq in Hc.
      - subst m. rewrite Hn, removeprefix_app in Heq at 1.
        apply (prefixed_longer t). by rewrite <-Hn.
      - by subst m. }
    assert (∀ text, files w !! (d ++ [n]) = Some text ->
              (m = n ∨ files w !! (d ++ [t]) = Some text) ->
              <[d ++ [strip m] := text_m]> (files w) !! (d ++ [t]) = Some text) as Hstep.
    { intros text Hs [->|Ht].
      - rewrite Hn, removeprefix_app, lookup_insert_eq. rewrite Hn in Hs. congruence.
      - destruct (decide (strip m = t)) as [Heq|Hne].
        + rewrite Heq, lookup_insert_eq.
          destruct (strip_cases m) as [Hc|Hc]; rewrite Heq in Hc; subst m; congruence.
        + rewrite lookup_insert_ne; [done|]. intros H%child_inj. done. }
    rewrite lookup_insert_ne in Hsrc, Hdone, Hkeep by (intros H%child_inj; done).
    split_and!.
    + done.
    + intros [->|Hin]%elem_of_cons.
      * exists text_m. split; [done|]. apply Hkeep; [done|].
        apply Hstep; [done|by left].
      * by apply Hdone.
    + intros text Hs Ht. apply Hkeep; [done|]. apply Hstep; [done|by right].
Qed.

Lemma rename_loop_same d l w w' :
  (∀ m, m ∈ l -> Py.startswith "setup_" m = false) ->
  for_each_R rename_file ((fun m => d ++ [m]) <$> l) w = (inr tt, w') ->
  files w' = files w ∧
  ∃ ws, written w' = written w ++ ws ∧
        Forall2 (fun m p => p.1 = d ++ [m] ∧ files w !! (d ++ [m]) = Some p.2) l ws.
Proof.
  revert w. induction l as [|m l IH]; intros w Hall Hrun.
  - injection Hrun as <-. split; [done|]. exists [].
    split; [by rewrite (right_id_L [] (++))|constructor].
  - rewrite fmap_cons, for_each_R_cons in Hrun.
    destruct (rename_file (d ++ [m]) w) as [[e|[]] w1] eqn:Hm; [done|].
    apply rename_file_returns in Hm as (text_m & Hread & ->).
    rewrite removeprefix_id in Hrun by (apply Hall; by left).
    rewrite insert_id in Hrun by done.
    assert (∀ m', m' ∈ l -> Py.startswith "setup_" m' = false) as Hall'
      by (intros m' Hm'; apply Hall; by right).
    destruct (IH _ Hall' Hrun) as (Hf & ws & Hws & Hall2). cbn [files written] in *.
    split; [done|]. exists ((d ++ [m], text_m) :: ws).
    split; [by rewrite Hws, <-(assoc_L (++))|]. by constructor.
Qed.

Lemma rename_loop_bare d l w :
  "setup_" ∈ l ->
  ∃ e w', for_each_R rename_file ((fun m => d ++ [m]) <$> l) w = (inl e, w').
Proof.
  revert w. induction l as [|m l IH]; intros w Hin; [by apply elem_of_nil in Hin|].
  rewrite fmap_cons, for_each_R_cons.
  destruct (rename_file (d ++ [m]) w) as [[e|[]] w1] eqn:Hm; [by eauto|].
  apply elem_of_cons in Hin as [<-|Hin]; [|by apply IH].
  unfold rename_file, bind_R, with_name in Hm. rewrite name_child in Hm.
  by vm_compute in Hm.
Qed.

Lemma rename_setups_unfold w entries :
  dirs w !! Path_of "docs/setups" = Some entries ->
  rename_setups w =
  for_each_R rename_file ((fun m => Path_of "docs/setups" ++ [m]) <$> entries) w.
Proof.
  intros Hdir. unfold rename_setups, bind_R, lift, iterdir. by rewrite Hdir.
Qed.
End rename.

(** X17. After a run of [rename_setups] that returns, a listed file named
    [setup_t] has been copied, not moved: the file [t] of the section holds
    the text [setup_t] had before the run, and [setup_t] still holds it.
    This needs that no listed file is named [setup_setup_t], whose copy
    would overwrite [setup_t]. *)
Theorem rename_setups_copies (w w' : world) (entries : list string) (t : string) :
  dirs w !! Path_of "docs/setups" = Some entries ->
  rename_setups w = (inr tt, w') ->
  ("setup_" +:+ t) ∈ entries ->
  ("setup_" +:+ "setup_" +:+ t) ∉ entries ->
  ∃ text,
    files w !! (Path_of "docs/setups" ++ ["setup_" +:+ t]) = Some text ∧
    files w' !! (Path_of "docs/setups" ++ [t]) = Some text ∧
    files w' !! (Path_of "docs/setups" ++ ["setup_" +:+ t]) = Some text.
Proof.
  intros Hdir Hrun Hin Hnot. rewrite (rename_setups_unfold _ _ Hdir) in Hrun.
  destruct (rename_loop_copy _ ("setup_" +:+ t) t _ _ _ eq_refl Hnot Hrun)
    as (Hsrc & Hdone & _).
  destruct (Hdone Hin) as (text & Htext & Hcopy).
  exists text. split_and!; [done|done|]. by rewrite Hsrc.
Qed.

Lemma rename_setups_copies_witness :
  ∃ text,
    files (setups_world ["setup_zsh.md"; "index.md"; "setup_vim.md"])
      !! (Path_of "docs/setups" ++ ["setup_" +:+ "vim.md"]) = Some text ∧
    files (rename_setups (setups_world ["setup_zsh.md"; "index.md"; "setup_vim.md"])).2
      !! (Path_of "docs/setups" ++ ["vim.md"]) = Some text ∧
    files (rename_setups (setups_world ["setup_zsh.md"; "index.md"; "setup_vim.md"])).2
      !! (Path_of "docs/setups" ++ ["setup_" +:+ "vim.md"]) = Some text.
Proof.
  apply (rename_setups_copies (setups_world ["setup_zsh.md"; "index.md"; "setup_vim.md"]) _
           ["setup_zsh.md"; "index.md"; "setup_vim.md"] "vim.md").
  - reflexivity.
  - vm_compute. reflexivity.
  - apply (bool_decide_unpack _). by vm_compute.
  - apply (bool_decide_unpack _). by vm_compute.
Defined.

(** X18. When no listed file has the prefix [setup_], a run of
    [rename_setups] that returns has written, in the order of the listing
    and once for each entry, every listed file onto itself with the text it
    had: the writes are those and no others, and no file changes. *)
Theorem rename_setups_without_prefix (w w' : world) (entries : list string) :
  dirs w !! Path_of "docs/setups" = Some entries ->
  (∀ n, n ∈ entries -> Py.startswith "setup_" n = false) ->
  rename_setups w = (inr tt, w') ->
  files w' = files w ∧
  ∃ ws, written w' = written w ++ ws ∧
        Forall2 (fun n p => p.1 = Path_of "docs/setups" ++ [n] ∧
                            files w !! (Path_of "docs/setups" ++ [n]) = Some p.2)
                entries ws.
Proof.
  intros Hdir Hall Hrun. rewrite (rename_setups_unfold _ _ Hdir) in Hrun.
  by eapply rename_loop_same.
Qed.

Lemma rename_setups_without_prefix_witness :
  files (rename_setups (setups_world ["index.md"; "notes.txt"])).2 =
    files (setups_world ["index.md"; "notes.txt"]) ∧
  ∃ ws,
    written (rename_setups (setups_world ["index.md"; "notes.txt"])).2 =
      written (setups_world ["index.md"; "notes.txt"]) ++ ws ∧
    Forall2 (fun n p => p.1 = Path_of "docs/setups" ++ [n] ∧
                        files (setups_world ["index.md"; "notes.txt"])
                          !! (Path_of "docs/setups" ++ [n]) = Some p.2)
            ["index.md"; "notes.txt"] ws.
Proof.
  apply (rename_setups_without_prefix (setups_world ["index.md"; "notes.txt"])).
  - reflexivity.
  - intros n Hn. repeat (apply elem_of_cons in Hn as [->|Hn]; [reflexivity|]).
    by apply elem_of_nil in Hn.
  - vm_compute. reflexivity.
Defined.

(** X19. A listed file whose name is the bare prefix [setup_] makes a run
    of [rename_setups] raise: the name left after the prefix is empty, which
    [with_name] refuses, so no run with such an entry returns. *)
Theorem rename_setups_bare_prefix (w : world) (entries : list string) :
  dirs w !! Path_of "docs/setups" = Some entries ->
  "setup_" ∈ entries ->
  ∃ e w', rename_setups w = (inl e, w').
Proof.
  intros Hdir Hin. rewrite (rename_setups_unfold _ _ Hdir). by apply rename_loop_bare.
Qed.

Lemma rename_setups_bare_prefix_witness :
  ∃ e w', rename_setups (setups_world ["setup_zsh.md"; "setup_"; "setup_vim.md"]) = (inl e, w').
Proof.
  apply (rename_setups_bare_prefix _ ["setup_zsh.md"; "setup_"; "setup_vim.md"]).
  - reflexivity.
  - apply (bool_decide_unpack _). by vm_compute.
Defined.

(** ** More on titles, headings and writes *)

(** X20. The title value holds no whitespace but single space characters:
    no tab, no newline, whatever the title line holds; so the heading made
    of it is one line. *)
Theorem title_of_line_plain_spaces (line : string) :
  all_chars spaced (title_of_line line) = true ∧
  lines_of (heading (title_of_line line)) = [heading (title_of_line line)].
Proof.
  assert (all_chars spaced (title_of_line line) = true) as Hsp.
  { unfold title_of_line.
    apply removesuffix_chars, removeprefix_chars, join_spaced, Forall_drop, split_tokens. }
  split; [done|]. apply split_sep_one, heading_no_LF.
  revert Hsp. apply all_chars_impl, spaced_not_LF.
Qed.

(** X21. A heading that stands on the line right after the terminator is
    not seen: [file_update] looks one line further, and when that line
    does not start with a hash and a space it puts a second heading in, so
    the file ends up with the heading twice, two and four lines after the
    terminator. *)
Theorem heading_right_after_terminator_is_doubled
    (w : world) (filename : Path) (original title line2 : string) (i : nat) :
  files w !! filename = Some original ->
  terminator (lines_of original) i ->
  (scan (lines_of original) 0 (None, None)).2 = Some title ->
  lines_of original !! (i + 1) = Some (heading title) ->
  lines_of original !! (i + 2) = Some line2 ->
  Py.startswith "# " line2 = false ->
  ∃ text,
    file_update filename w =
      (inr tt, World (<[filename := text]> (files w)) (dirs w) (stdout w)
                     (written w ++ [(filename, text)])) ∧
    lines_of text !! (i + 2) = Some (heading title) ∧
    lines_of text !! (i + 4) = Some (heading title).
Proof.
  intros Hfile Hterm Htitle Hline1 Hline2 Hstart.
  pose proof (lookup_lt_Some _ _ _ Hline2) as Hlen.
  pose proof (scan_terminator _ _ Hterm) as Hscan.
  rewrite Hscan in Htitle. cbn [snd] in Htitle.
  assert (line2 ≠ heading title) as Hne by (intros ->; by vm_compute in Hstart).
  eexists. split.
  { rewrite (file_update_unfold _ _ _ Hfile). cbn zeta.
    rewrite Hscan, Htitle, Hline2, Hstart.
    rewrite bool_decide_eq_false_2 by done. reflexivity. }
  rewrite lines_of_text_of; first last.
  { apply Forall_app. split; [apply Forall_take, split_sep_free|].
    repeat (apply Forall_cons; split; [try done|]).
    - eapply heading_no_LF, last_title_no_LF; [|done]. by intros ? [=].
    - apply Forall_drop, split_sep_free. }
  { intros Hnil. apply (f_equal length) in Hnil.
    rewrite length_app in Hnil. simpl in Hnil. lia. }
  split.
  - replace (i + 2) with (i + 1 + 1) by lia.
    exact (inserted_at _ _ _ Hlen 1 ltac:(lia)).
  - replace (i + 4) with (i + 1 + 3) by lia.
    rewrite <-Hline1. apply (inserted_after _ _ _ Hlen). lia.
Qed.

Lemma heading_right_after_terminator_is_doubled_witness :
  ∃ text,
    file_update post_md (world_of doc_tight) =
      (inr tt, World (<[post_md := text]> (files (world_of doc_tight)))
                     (dirs (world_of doc_tight)) (stdout (world_of doc_tight))
                     (written (world_of doc_tight) ++ [(post_md, text)])) ∧
    lines_of text !! (2 + 2) = Some (heading "Hello World") ∧
    lines_of text !! (2 + 4) = Some (heading "Hello World").
Proof.
  apply (heading_right_after_terminator_is_doubled (world_of doc_tight) post_md
           (text_of doc_tight) "Hello World" "Text." 2).
  - reflexivity.
  - split_and!; [lia | by eexists | ]. intros j l' H1 H2 Hj. by_index j Hj.
  - reflexivity.
  - reflexivity.
  - reflexivity.
  - reflexivity.
Defined.

(** X22. When the directory yields no name twice, [sorted_files] returns
    no file twice: each file of the section is processed once. *)
Theorem sorted_files_no_duplicates
    (w : world) (section_slug : string) (entries : list string) (fs : list Path) :
  dirs w !! Path_of ("docs/" +:+ section_slug) = Some entries ->
  NoDup entries ->
  (sorted_files section_slug w).1 = inr fs ->
  NoDup fs.
Proof.
  intros Hdir Hnodup Hfs. rewrite (sorted_files_unfold _ _ _ Hdir) in Hfs.
  injection Hfs as <-. unfold sorted. rewrite merge_sort_Permutation.
  apply NoDup_filter, NoDup_fmap_2; [|done].
  intros n m H. apply (child_inj (Path_of ("docs/" +:+ section_slug))). exact H.
Qed.

Lemma sorted_files_no_duplicates_witness :
  ∃ fs, (sorted_files "blog" (site_world "")).1 = inr fs ∧ NoDup fs.
Proof.
  eexists. split; [by vm_compute|].
  apply (sorted_files_no_duplicates (site_world "") "blog"
           ["c.md"; "index.md"; "a.md"; "my-first_post.md"; "b.md"]).
  - reflexivity.
  - apply (bool_decide_unpack _). by vm_compute.
  - by vm_compute.
Defined.

(** A file with its heading in place is not written. *)
Lemma heading_ok_not_written (w w' : world) (g : Path) :
  heading_ok w g ->
  file_update g w = (inr tt, w') ->
  written w' = written w.
Proof.
  intros (text0 & Hfile & Hplace) Hrun.
  rewrite (heading_in_place_run _ _ _ Hfile Hplace) in Hrun. by injection Hrun as <-.
Qed.

Lemma for_each_file_update_writes (fs : list Path) (w w' : world) (r : exn + unit) :
  for_each file_update fs w = (r, w') ->
  ∃ ws, written w' = written w ++ ws ∧
        ws.*1 `sublist_of` fs ∧ NoDup ws.*1 ∧
        ∀ f, heading_ok w f -> f ∉ ws.*1.
Proof.
  revert w. induction fs as [|g fs IH]; intros w Hrun.
  - injection Hrun as <- <-. exists []. rewrite (right_id_L [] (++)).
    split_and!; [done|constructor|constructor|]. intros f _ Hf. by apply elem_of_nil in Hf.
  - rewrite for_each_cons in Hrun.
    destruct (file_update g w) as [[e|[]] w1] eqn:Hg.
    + injection Hrun as <- <-. apply file_update_raises in Hg as ->.
      exists []. rewrite (right_id_L [] (++)).
      split_and!; [done|apply sublist_nil_l|constructor|].
      intros f _ Hf. by apply elem_of_nil in Hf.
    + destruct (IH _ Hrun) as (ws & Hws & Hsub & Hnodup & Hok).
      pose proof (file_update_leaves_heading _ _ _ Hg) as Hdone.
      assert (∀ f, heading_ok w f -> heading_ok w1 f) as Hkept
        by (intros f; by apply (heading_ok_kept w w1 f g (inr tt))).
      destruct (decide (written w1 = written w)) as [Hsame|Hdiff].
      * exists ws. rewrite Hws, Hsame.
        split_and!; [done|by apply sublist_cons|done|]. intros f Hf. by apply Hok, Hkept.
      * assert (∃ text, written w1 = written w ++ [(g, text)]) as (text & Hone).
        { apply file_update_returns in Hg
            as (original & i & title & line2 & _ & _ & _ & _ &
                [[_ ->]|[(_ & _ & ->)|(_ & _ & ->)]]); [done|by eexists..]. }
        exists ((g, text) :: ws). rewrite Hws, Hone, <-(assoc_L (++)).
        split_and!; [done|by apply sublist_skip| |].
        -- apply NoDup_cons. split; [by apply Hok|done].
        -- intros f Hf [->|Hin]%elem_of_cons.
           ++ apply Hdiff. by eapply heading_ok_not_written.
           ++ exact (Hok f (Hkept f Hf) Hin).
Qed.

(** X23. [section_update] writes a listed file at most once and writes no
    other file, whether it returns or raises: the files of its writes, in
    the order they were made, are a sub-sequence of the listed files in
    which no file comes twice, even when the listing names a file twice. *)
Theorem section_update_write_count
    (w w' : world) (section : string) (fs : list Path) (r : exn + unit) :
  (sorted_files (Py.lower section) w).1 = inr fs ->
  section_update section w = (r, w') ->
  ∃ ws, written w' = written w ++ ws ∧
        ws.*1 `sublist_of` fs ∧ NoDup ws.*1.
Proof.
  intros Hfs Hrun. rewrite section_update_unfold, Hfs in Hrun.
  apply for_each_file_update_writes in Hrun as (ws & ? & ? & ? & _). eauto.
Qed.

Lemma section_update_write_count_witness :
  ∃ ws,
    written (section_update "blog" (blog_world doc_done doc_old_heading)).2 =
      written (blog_world doc_done doc_old_heading) ++ ws ∧
    ws.*1 `sublist_of` [["docs"; "blog"; "a.md"]; ["docs"; "blog"; "b.md"]] ∧
    NoDup ws.*1.
Proof.
  apply (section_update_write_count (blog_world doc_done doc_old_heading) _ "blog" _
           (section_update "blog" (blog_world doc_done doc_old_heading)).1).
  - by vm_compute.
  - by destruct (section_update "blog" (blog_world doc_done doc_old_heading)).
Defined.
